(** * archinstall: the pacman runner and its lock-file gate

    A shallow embedding of [archinstall/lib/pacman.py] (the function
    [run_pacman]) together with the part of [archinstall/lib/output.py]
    it calls ([warn], [error], [log], [_stylize_output],
    [_supports_color]); beyond the runner, the rest of [output.py]
    ([FormattedOutput]) and the questions of
    [archinstall/lib/interactions/general_conf.py].

    Conventions of the embedding:
    - wall-clock time is an integer number of milliseconds ([Z]); the
      source's [time.sleep(0.25)] is [sleep 250] and its ceiling
      [60 * 10] seconds is [600000];
    - the clock of [Pacman] is the discrete one of a simulated run: it
      advances during [sleep], by the requested interval, and not
      otherwise; [Timed] is the same runner on a clock on which every
      call may take longer, and the bounds on the wait are stated there
      ([timed_run_pacman_no_delay] relates the two);
    - the builtin [exit] ends the run of [run_pacman] with its status;
      it does so by raising [SystemExit], which a caller can catch
      ([catching]);
    - the file system outside the process is an oracle [probe]: the
      answer to the k-th existence check the process makes;
    - every call the runner makes to a collaborator is appended, stamped
      with the clock, to the trace of the world;
    - the [while] loop is a fixpoint on a bound [fuel] of its iterations;
      [enough] of it, 2401, is never used up ([run_pacman_total]) and
      more changes nothing ([run_pacman_fuel]). *)

From Stdlib Require Import ZArith Lia.
From stdpp Require Import base option list strings gmap pretty sorting.

Local Open Scope Z_scope.

(** ** Text helpers *)

Definition LF : string := String (Ascii.ascii_of_nat 10) EmptyString.
Definition ESC : string := String (Ascii.ascii_of_nat 27) EmptyString.

(** Python's [sep.join(parts)]. *)
Fixpoint join (sep : string) (parts : list string) : string :=
  match parts with
  | [] => EmptyString
  | [p] => p
  | p :: rest => p +:+ sep +:+ join sep rest
  end.

(** ** What the process does to its surroundings *)

Inductive Effect :=
  | Stat (path : string)                (* pathlib.Path.exists *)
  | AppendFile (path data : string)     (* open(path, 'a') and write *)
  | JournalLog (level : Z) (text : string)
  | StdoutWrite (text : string)
  | Nanosleep (ms : Z)
  | ProcessExit (code : Z).

(** A file system: the content of every existing path. *)
Definition fs_apply (e : Effect) (fs : gmap string string) : gmap string string :=
  match e with
  | AppendFile p d => <[p := default EmptyString (fs !! p) +:+ d]> fs
  | Stat _ | JournalLog _ _ | StdoutWrite _ | Nanosleep _ | ProcessExit _ => fs
  end.

Definition fs_replay (es : list Effect) (fs : gmap string string) : gmap string string :=
  foldl (fun acc e => fs_apply e acc) fs es.

Definition writes_to (p : string) (e : Effect) : bool :=
  match e with
  | AppendFile q _ => bool_decide (q = p)
  | _ => false
  end.

(** ** output.py *)
Module Output.

(** The levels of Python's [logging] module. *)
Definition DEBUG : Z := 10.
Definition INFO : Z := 20.
Definition WARN : Z := 30.
Definition ERROR : Z := 40.

Inductive Font := bold | italic | underscore | blink | reverse | conceal.

Definition Font_value (f : Font) : string :=
  match f with
  | bold => "1" | italic => "3" | underscore => "4"
  | blink => "5" | reverse => "7" | conceal => "8"
  end.

(** What the module reads from the machine it runs on.  [storage]
    (lib/storage.py) is not among the sources: the log file it names,
    [LOG_PATH / LOG_FILE] when [LOG_FILE] is set, and its [verbose]
    argument are taken as given. *)
Record Host := {
  platform : string;               (* sys.platform *)
  ansicon : bool;                  (* 'ANSICON' in os.environ *)
  stdout_isatty : option bool;     (* None: sys.stdout has no isatty *)
  absolute_logfile : option string;
  systemd_journal : bool;          (* import systemd.journal succeeds *)
  verbose : bool
}.

Definition _supports_color (h : Host) : bool :=
  let supported_platform := negb (String.eqb (platform h) "win32") || ansicon h in
  let is_a_tty := match stdout_isatty h with Some b => b | None => false end in
  supported_platform && is_a_tty.

Definition colors : gmap string string :=
  list_to_map
    [ ("black", "0"); ("red", "1"); ("green", "2"); ("yellow", "3");
      ("blue", "4"); ("magenta", "5"); ("cyan", "6"); ("white", "7");
      ("teal", "8;5;109"); ("orange", "8;5;208"); ("darkorange", "8;5;202");
      ("gray", "8;5;246"); ("grey", "8;5;246"); ("darkgray", "8;5;240");
      ("lightgray", "8;5;256") ].

Definition foreground : gmap string string := String.append "3" <$> colors.
Definition background : gmap string string := String.append "4" <$> colors.

(** [None] is the [KeyError] of a colour that is not in the table. *)
Definition _stylize_output (text fg : string) (bg : option string)
    (reset : bool) (font : list Font) : option string :=
  if String.eqb text "" && reset then Some (ESC +:+ "[0m")
  else
    f ← foreground !! fg;
    b ← match bg with
        | None => Some []
        | Some c => if String.eqb c "" then Some [] else (fun x => [x]) <$> background !! c
        end;
    let code_list := [f] ++ b ++ map Font_value font in
    let ansi := join ";" code_list in
    Some (ESC +:+ "[" +:+ ansi +:+ "m" +:+ text +:+ ESC +:+ "[0m").

(** The arguments of one call of [log]. *)
Record LogCall := {
  msgs : list string;
  level : Z;
  fg : string;
  bg : option string;
  reset : bool;
  font : list Font
}.

Definition info (ms : list string) : LogCall :=
  {| msgs := ms; level := INFO; fg := "white"; bg := None; reset := false; font := [] |}.
Definition debug (ms : list string) : LogCall :=
  {| msgs := ms; level := DEBUG; fg := "white"; bg := None; reset := false; font := [] |}.
Definition error (ms : list string) : LogCall :=
  {| msgs := ms; level := ERROR; fg := "red"; bg := None; reset := false; font := [] |}.
Definition warn (ms : list string) : LogCall :=
  {| msgs := ms; level := WARN; fg := "yellow"; bg := None; reset := false; font := [] |}.

(** [log]: the effects of one call, in order; [None] when styling
    raises before anything is written, its [KeyError].  The effects are
    those of a call whose writes go through, on a logger with one journal
    handler: what [open], the journal or the terminal may raise, and the
    handlers [Journald.log] adds from one call to the next, are not
    part of it. *)
Definition log (h : Host) (c : LogCall) : option (list Effect) :=
  let orig_string := join " " (msgs c) in
  text ← (if _supports_color h
          then _stylize_output orig_string (fg c) (bg c) (reset c) (font c)
          else Some orig_string);
  Some ((match absolute_logfile h with
         | Some p => [AppendFile p (orig_string +:+ LF)]
         | None => []
         end)
        ++ (if systemd_journal h then [JournalLog (level c) text] else [])
        ++ (if negb (level c =? DEBUG) || verbose h
            then [StdoutWrite (text +:+ LF)] else [])).

End Output.

(** ** pacman.py *)
Module Pacman.

(** Modelled from the spec: the class [SysCommand] of lib/general.py is
    not among the sources; a handle is the command line it was
    constructed from. *)
Record SysCommand := { cmd : string }.

(** The calls [run_pacman] makes. *)
Inductive Call :=
  | Exists (path : string) (found : bool)
  | Sleep (ms : Z)
  | Log (c : Output.LogCall)
  | Exit (code : Z).

Record World := {
  now : Z;                      (* the clock, in ms *)
  checks : nat;                 (* existence checks made so far *)
  trace : list (Z * Call)       (* oldest first *)
}.

(** [Exited code]: [exit(code)] has raised [SystemExit(code)], which ends
    the process with that status unless a caller catches it.
    [Polling]: the model's fuel ran out with the loop still going. *)
Inductive Outcome (A : Type) :=
  | Returned (a : A)
  | Exited (code : Z)
  | Polling.
Arguments Returned {A} a.
Arguments Exited {A} code.
Arguments Polling {A}.

Definition M (A : Type) : Type := World -> Outcome A * World.

Definition ret {A} (a : A) : M A := fun w => (Returned a, w).

Definition bind {A B} (m : M A) (k : A -> M B) : M B :=
  fun w =>
    match m w with
    | (Returned a, w') => k a w'
    | (Exited c, w') => (Exited c, w')
    | (Polling, w') => (Polling, w')
    end.

Declare Scope run_scope.
Delimit Scope run_scope with run.
Notation "x <- m ;; k" := (bind m (fun x => k))
  (at level 100, m at next level, right associativity) : run_scope.
Notation "m ;; k" := (bind m (fun _ => k))
  (at level 100, right associativity) : run_scope.

Definition emit (c : Call) (w : World) : World :=
  {| now := now w; checks := checks w; trace := trace w ++ [(now w, c)] |}.

Definition pacman_db_lock : string := "/var/lib/pacman/db.lck".
Definition poll_interval : Z := 250.        (* time.sleep(0.25) *)
Definition ceiling : Z := 60 * 10 * 1000.   (* 60 * 10 seconds *)

Definition warn_text : string :=
  "Pacman is already running, waiting maximum 10 minutes for it to terminate.".
Definition error_text : string :=
  "Pre-existing pacman lock never exited. Please clean up any existing pacman sessions before using archinstall.".

Section Runner.
(** [probe p k]: whether path [p] exists at the k-th existence check. *)
Variable probe : string -> nat -> bool.
(** The translation lookup [_], installed by a module that is not
    among the sources. *)
Variable gettext : string -> string.

Definition exists_ (p : string) : M bool :=
  fun w =>
    let b := probe p (checks w) in
    (Returned b,
     {| now := now w; checks := S (checks w);
        trace := trace w ++ [(now w, Exists p b)] |}).

Definition time : M Z := fun w => (Returned (now w), w).

Definition sleep (ms : Z) : M unit :=
  fun w =>
    (Returned tt,
     {| now := now w + ms; checks := checks w;
        trace := trace w ++ [(now w, Sleep ms)] |}).

Definition warn (ms : list string) : M unit :=
  fun w => (Returned tt, emit (Log (Output.warn ms)) w).

Definition error (ms : list string) : M unit :=
  fun w => (Returned tt, emit (Log (Output.error ms)) w).

Definition exit {A} (code : Z) : M A :=
  fun w => (Exited code, emit (Exit code) w).

Definition when (b : bool) (m : M unit) : M unit :=
  if b then m else ret tt.

(** [try: m except SystemExit as e: handler(e.code)], in a caller: the
    builtin [exit] raises [SystemExit], which [bind] lets through and an
    [except] clause gets hold of. *)
Definition catching {A} (m : M A) (handler : Z -> M A) : M A :=
  fun w =>
    match m w with
    | (Exited code, w') => handler code w'
    | (r, w') => (r, w')
    end.

Local Open Scope run_scope.

(** The [while] loop of [run_pacman]; [fuel] bounds its iterations. *)
Fixpoint wait_loop (fuel : nat) (started : Z) : M unit :=
  match fuel with
  | O => fun w => (Polling, w)
  | S fuel' =>
      locked <- exists_ pacman_db_lock ;;
      if locked then
        sleep poll_interval ;;
        t <- time ;;
        when (t - started >? ceiling)
          (error [gettext error_text] ;; exit 1) ;;
        wait_loop fuel' started
      else ret tt
  end.

Definition run_pacman (fuel : nat) (args default_cmd : string) : M SysCommand :=
  locked <- exists_ pacman_db_lock ;;
  when locked (warn [gettext warn_text]) ;;
  started <- time ;;
  wait_loop fuel started ;;
  ret {| cmd := default_cmd +:+ " " +:+ args |}.

End Runner.

(** The world a call starts in. *)
Definition boot (t0 : Z) : World := {| now := t0; checks := 0; trace := [] |}.

(** Iterations after which the loop has always left: 2401. *)
Definition enough : nat := Z.to_nat (ceiling / poll_interval + 1).

End Pacman.

Import Pacman.

(** ** Reading a trace *)

Definition is_check (c : Call) : bool :=
  match c with Exists _ _ => true | _ => false end.
Definition is_sleep (c : Call) : bool :=
  match c with Sleep _ => true | _ => false end.
Definition is_exit (c : Call) : bool :=
  match c with Exit _ => true | _ => false end.
Definition is_warning (c : Call) : bool :=
  match c with Log l => Output.level l =? Output.WARN | _ => false end.
Definition is_error (c : Call) : bool :=
  match c with Log l => Output.level l =? Output.ERROR | _ => false end.
Definition saw_lock (c : Call) : bool :=
  match c with Exists _ found => found | _ => false end.

(** How many calls of a kind a trace holds. *)
Fixpoint count (p : Call -> bool) (tr : list (Z * Call)) : nat :=
  match tr with
  | [] => O
  | (_, c) :: tr' => ((if p c then 1 else 0) + count p tr')%nat
  end.

(** The clock at the first call of a kind. *)
Fixpoint first_time (p : Call -> bool) (tr : list (Z * Call)) : option Z :=
  match tr with
  | [] => None
  | (t, c) :: tr' => if p c then Some t else first_time p tr'
  end.

(** The effects of one call, and of a whole trace, on a given host. *)
Definition effects (h : Output.Host) (c : Call) : option (list Effect) :=
  match c with
  | Exists p _ => Some [Stat p]
  | Sleep ms => Some [Nanosleep ms]
  | Log l => Output.log h l
  | Exit code => Some [ProcessExit code]
  end.

Fixpoint trace_effects (h : Output.Host) (tr : list (Z * Call)) : option (list Effect) :=
  match tr with
  | [] => Some []
  | (_, c) :: tr' =>
      es ← effects h c;
      rest ← trace_effects h tr';
      Some (es ++ rest)
  end.

(** ** The worlds an iteration goes through *)

Definition checked (b : bool) (w : World) : World :=
  {| now := now w; checks := S (checks w);
     trace := trace w ++ [(now w, Exists pacman_db_lock b)] |}.

Definition slept (w : World) : World :=
  {| now := now w + poll_interval; checks := checks w;
     trace := trace w ++ [(now w, Sleep poll_interval)] |}.

Definition aborted (msg : string) (w : World) : World :=
  emit (Exit 1) (emit (Log (Output.error [msg])) w).

(** The calls before the loop: the first check, and the warning when it
    found the lock. *)
Definition opening (msg : string) (t0 : Z) (found : bool) : list (Z * Call) :=
  (t0, Exists pacman_db_lock found)
    :: (if found then [(t0, Log (Output.warn [msg]))] else []).

(** The world in which a call started at [t0] enters its loop. *)
Definition entered (msg : string) (t0 : Z) (found : bool) : World :=
  {| now := t0; checks := 1; trace := opening msg t0 found |}.

(** The outcome of the call, from that of its loop. *)
Definition handed (h : SysCommand) (r : Outcome unit) : Outcome SysCommand :=
  match r with
  | Returned _ => Returned h
  | Exited c => Exited c
  | Polling => Polling
  end.

(** ** Sample surroundings *)

(** Lock files over the checks of one call. *)
Definition never_locked : string -> nat -> bool := fun _ _ => false.
Definition always_locked : string -> nat -> bool := fun _ _ => true.
(** Absent at the first check, there from the second on. *)
Definition locked_late : string -> nat -> bool := fun _ k => (1 <=? k)%nat.
(** There at the second check only. *)
Definition locked_once : string -> nat -> bool := fun _ k => (k =? 1)%nat.
(** There at the first three checks. *)
Definition locked_thrice : string -> nat -> bool := fun _ k => (k <? 3)%nat.

Definition untranslated : string -> string := fun s => s.

Definition installer_host : Output.Host :=
  {| Output.platform := "linux";
     Output.ansicon := false;
     Output.stdout_isatty := Some true;
     Output.absolute_logfile := Some "/var/log/archinstall/install.log";
     Output.systemd_journal := false;
     Output.verbose := false |}.

(** The immediate path as the specification words it: the lock absent at
    the first existence check is enough for a handle with no sleep and
    no warning. *)
Definition immediate_path_as_specified (probe : string -> nat -> bool)
    (gettext : string -> string) (fuel : nat) (args default_cmd : string)
    (t0 : Z) : Prop :=
  probe pacman_db_lock 0%nat = false ->
  exists h w,
    run_pacman probe gettext fuel args default_cmd (boot t0) = (Returned h, w) /\
    count is_sleep (trace w) = 0%nat /\
    count is_warning (trace w) = 0%nat.

(** The timeout as the specification words it: not a catchable error,
    so that whatever a caller does to catch it, control does not come
    back from a call that times out. *)
Definition timeout_as_specified (probe : string -> nat -> bool)
    (gettext : string -> string) (fuel : nat) (args default_cmd : string)
    (t0 : Z) : Prop :=
  (forall k : nat, (1 <= k <= enough)%nat -> probe pacman_db_lock k = true) ->
  forall (handler : Z -> M SysCommand) h w,
    catching (run_pacman probe gettext fuel args default_cmd) handler (boot t0)
    <> (Returned h, w).

(** A caller that answers the [SystemExit] with a handle of its own. *)
Definition fallback (code : Z) : M SysCommand :=
  ret {| cmd := "true" |}.

(** An effect that writes no file but, at most, the log file. *)
Definition only_logs_to (logfile : option string) (e : Effect) : Prop :=
  forall p, writes_to p e = true -> logfile = Some p.

(** ** The loop as a step relation

    [polls probe msg started w r w']: started in world [w], the [while]
    loop of [run_pacman] leaves in world [w'] with outcome [r].  [msg] is
    the translated text of the error message, [polls_cut] the loop cut
    short by the model's bound on its iterations. *)
Inductive polls (probe : string -> nat -> bool) (msg : string) (started : Z) :
    World -> Outcome unit -> World -> Prop :=
  | polls_clear w :
      probe pacman_db_lock (checks w) = false ->
      polls probe msg started w (Returned tt) (checked false w)
  | polls_timeout w :
      probe pacman_db_lock (checks w) = true ->
      ceiling < now w + poll_interval - started ->
      polls probe msg started w (Exited 1) (aborted msg (slept (checked true w)))
  | polls_again w r w' :
      probe pacman_db_lock (checks w) = true ->
      now w + poll_interval - started <= ceiling ->
      polls probe msg started (slept (checked true w)) r w' ->
      polls probe msg started w r w'
  | polls_cut w :
      polls probe msg started w Polling w.

(** The calls of a loop entered at clock [t], with its outcome: every
    check that finds the lock is followed by one sleep, and the next
    check comes one interval later. *)
Inductive paced (msg : string) : Z -> Outcome unit -> list (Z * Call) -> Prop :=
  | paced_cut t : paced msg t Polling []
  | paced_clear t : paced msg t (Returned tt) [(t, Exists pacman_db_lock false)]
  | paced_timeout t :
      paced msg t (Exited 1)
        [ (t, Exists pacman_db_lock true); (t, Sleep poll_interval);
          (t + poll_interval, Log (Output.error [msg]));
          (t + poll_interval, Exit 1) ]
  | paced_again t r evs :
      paced msg (t + poll_interval) r evs ->
      paced msg t r ((t, Exists pacman_db_lock true) :: (t, Sleep poll_interval) :: evs).

(** Two outcomes of the gate that differ at most in the handle. *)
Definition same_gate {A B} (r1 : Outcome A) (r2 : Outcome B) : Prop :=
  match r1, r2 with
  | Returned _, Returned _ => True
  | Exited c1, Exited c2 => c1 = c2
  | Polling, Polling => True
  | _, _ => False
  end.

(** ** The runner on a clock that runs on its own

    The same [run_pacman], on a clock on which every call takes time:
    [delay k] is what the k-th call of a run (an existence check, a
    message, a sleep, the exit) takes, for a sleep over and above the
    interval it asks for.  With no delay at all this is the runner
    above. *)
Module Timed.
Section Runner.
Variable probe : string -> nat -> bool.
Variable gettext : string -> string.
Variable delay : nat -> Z.

(** The world after a call that asks for [ms] of time. *)
Definition spend (c : Call) (ms : Z) (w : World) : World :=
  {| now := now w + ms + delay (length (trace w));
     checks := checks w;
     trace := trace w ++ [(now w, c)] |}.

Definition exists_ (p : string) : M bool :=
  fun w =>
    let b := probe p (checks w) in
    (Returned b,
     {| now := now w + 0 + delay (length (trace w));
        checks := S (checks w);
        trace := trace w ++ [(now w, Exists p b)] |}).

Definition sleep (ms : Z) : M unit :=
  fun w => (Returned tt, spend (Sleep ms) ms w).

Definition warn (ms : list string) : M unit :=
  fun w => (Returned tt, spend (Log (Output.warn ms)) 0 w).

Definition error (ms : list string) : M unit :=
  fun w => (Returned tt, spend (Log (Output.error ms)) 0 w).

Definition exit {A} (code : Z) : M A :=
  fun w => (Exited code, spend (Exit code) 0 w).

Local Open Scope run_scope.

Fixpoint wait_loop (fuel : nat) (started : Z) : M unit :=
  match fuel with
  | O => fun w => (Polling, w)
  | S fuel' =>
      locked <- exists_ pacman_db_lock ;;
      if locked then
        sleep poll_interval ;;
        t <- time ;;
        when (t - started >? ceiling)
          (error [gettext error_text] ;; exit 1) ;;
        wait_loop fuel' started
      else ret tt
  end.

Definition run_pacman (fuel : nat) (args default_cmd : string) : M SysCommand :=
  locked <- exists_ pacman_db_lock ;;
  when locked (warn [gettext warn_text]) ;;
  started <- time ;;
  wait_loop fuel started ;;
  ret {| cmd := default_cmd +:+ " " +:+ args |}.

End Runner.
End Timed.

Definition no_delay : nat -> Z := fun _ => 0.


(** ** Python built-ins the functions below use *)
Module Py.

(** [range(start, stop, step)]; [None] is the [ValueError] of a zero
    step. *)
Definition range (start stop step : Z) : option (list Z) :=
  if step =? 0 then None
  else
    let n := if 0 <? step
             then (stop - start + step - 1) / step
             else (start - stop - step - 1) / (- step) in
    Some (map (fun k : nat => start + Z.of_nat k * step) (seq 0 (Z.to_nat n))).

(** The slice [l[i:j]] for [0 <= i]. *)
Definition slice {A} (l : list A) (i j : Z) : list A :=
  take (Z.to_nat (j - i)) (drop (Z.to_nat i) l).

(** [c * n] for a character [c]. *)
Fixpoint repeat (c : Ascii.ascii) (n : nat) : string :=
  match n with
  | O => EmptyString
  | S n' => String c (repeat c n')
  end.

(** [s.ljust(width)] and [s.rjust(width)]. *)
Definition ljust (width : nat) (s : string) : string :=
  s +:+ repeat (Ascii.ascii_of_nat 32) (width - String.length s).
Definition rjust (width : nat) (s : string) : string :=
  repeat (Ascii.ascii_of_nat 32) (width - String.length s) +:+ s.

(** [needle in hay] for strings. *)
Fixpoint contains (needle hay : string) : bool :=
  String.prefix needle hay
  || match hay with
     | EmptyString => false
     | String _ hay' => contains needle hay'
     end.

(** [s.split(sep)] for a separator of one character. *)
Fixpoint split_on (sep : Ascii.ascii) (s : string) : list string :=
  match s with
  | EmptyString => [EmptyString]
  | String a s' =>
      if Ascii.eqb a sep then EmptyString :: split_on sep s'
      else match split_on sep s' with
           | [] => [String a EmptyString]
           | x :: rest => String a x :: rest
           end
  end.

(** [s.replace(old, new)] for [old] of one character. *)
Fixpoint replace (old : Ascii.ascii) (new : string) (s : string) : string :=
  match s with
  | EmptyString => EmptyString
  | String a s' =>
      if Ascii.eqb a old then new +:+ replace old new s'
      else String a (replace old new s')
  end.

(** [sorted], a stable sort, for the order [le]. *)
Fixpoint insert_sorted {A} (le : A -> A -> bool) (x : A) (l : list A) : list A :=
  match l with
  | [] => [x]
  | y :: l' => if le x y then x :: l else y :: insert_sorted le x l'
  end.

Definition sorted {A} (le : A -> A -> bool) (l : list A) : list A :=
  foldr (insert_sorted le) [] l.

(** A [dict] in insertion order: [d[k] = v], [d[k]] and [d.keys()]. *)
Fixpoint dict_set {V} (k : string) (v : V) (d : list (string * V)) : list (string * V) :=
  match d with
  | [] => [(k, v)]
  | (k', v') :: d' =>
      if String.eqb k' k then (k', v) :: d' else (k', v') :: dict_set k v d'
  end.

Fixpoint dict_get {V} (k : string) (d : list (string * V)) : option V :=
  match d with
  | [] => None
  | (k', v') :: d' => if String.eqb k' k then Some v' else dict_get k d'
  end.

Definition dict_keys {V} (d : list (string * V)) : list string := map fst d.

(** What a call gives: a value, or the exception it raises, by name. *)
Inductive Result (A : Type) :=
  | Ok (a : A)
  | Raised (exn : string).
Arguments Ok {A} a.
Arguments Raised {A} exn.

End Py.

(** ** output.py: FormattedOutput *)
Module FormattedOutput.

(** One field of the format ['{: <30} ']: the entry, filled with spaces
    on the right to 30 characters, and a space. *)
Definition cell (s : string) : string := Py.ljust 30 s +:+ " ".

(** The [chunks] of [as_columns]. *)
Definition chunks (entries : list string) (cols : Z) : option (list (list string)) :=
  starts ← Py.range 0 (Z.of_nat (length entries)) cols;
  Some (map (fun i => Py.slice entries i (i + cols)) starts).

Definition as_columns (entries : list string) (cols : Z) : option string :=
  rows ← chunks entries cols;
  Some (foldl (fun output row => output +:+ String.concat "" (map cell row) +:+ LF)
              EmptyString rows).

(** A value of a table, as [as_table] looks at it: its class and its
    [str]. *)
Inductive Value :=
  | Text (s : string)          (* a str *)
  | Number (shown : string)    (* an int or a float *)
  | Object (shown : string).   (* anything else *)

Definition str (v : Value) : string :=
  match v with Text s | Number s | Object s => s end.

(** An object, as [values] looks at it.  An attribute is a method, which
    [values] calls with the filter list or with nothing, or it is
    anything else, which cannot be called; a formatter is taken to give
    a dict, as [values] is annotated, or to raise. *)
Inductive Attribute :=
  | Method (call : option (list string) -> Py.Result (list (string * Value)))
  | Field.

Record Obj := {
  getattr : string -> option Attribute;           (* None: hasattr is False *)
  asdict : option (list (string * Value));        (* None: is_dataclass is False *)
  dict_ : option (list (string * Value))          (* None: there is no __dict__ *)
}.

(** The [class_formatter] of [values]: none, a function, or the name of a
    method. *)
Inductive Formatter :=
  | NoFormatter
  | Function (f : Obj -> list string -> Py.Result (list (string * Value)))
  | Named (name : string).

(** Calling an attribute as [o.as_json()] does. *)
Definition call_no_args (a : Attribute) : Py.Result (list (string * Value)) :=
  match a with
  | Method call => call None
  | Field => Py.Raised "TypeError"
  end.

Definition values (o : Obj) (class_formatter : Formatter) (filter_list : list string)
    : Py.Result (list (string * Value)) :=
  let unformatted :=
    match getattr o "as_json" with
    | Some a => call_no_args a
    | None =>
        match getattr o "json" with
        | Some a => call_no_args a
        | None =>
            match asdict o with
            | Some d => Py.Ok d
            | None =>
                match dict_ o with
                | Some d => Py.Ok d
                | None => Py.Raised "AttributeError"
                end
            end
        end
    end in
  match class_formatter with
  | NoFormatter => unformatted
  | Named EmptyString => unformatted          (* the empty name is falsy *)
  | Function f => f o filter_list
  | Named name =>
      match getattr o name with
      | Some (Method call) => call (Some filter_list)
      | _ => Py.Raised "ValueError"
      end
  end.

(** The list comprehension of [as_table]: the values of the objects one
    after the other, up to the first that raises. *)
Fixpoint all_values (obj : list Obj) (class_formatter : Formatter)
    (filter_list : list string) : Py.Result (list (list (string * Value))) :=
  match obj with
  | [] => Py.Ok []
  | o :: rest =>
      match values o class_formatter filter_list with
      | Py.Raised exn => Py.Raised exn
      | Py.Ok d =>
          match all_values rest class_formatter filter_list with
          | Py.Raised exn => Py.Raised exn
          | Py.Ok raw_data => Py.Ok (d :: raw_data)
          end
      end
  end.

Section Table.
(** The built-ins [str.capitalize] and [str.isnumeric]. *)
Variable capitalize : string -> string.
Variable isnumeric : string -> bool.

Definition shown (filter_list : list string) (k : string) : bool :=
  match filter_list with
  | [] => true
  | _ :: _ => bool_decide (k ∈ filter_list)
  end.

(** One key and value of one record, in the maximum column size. *)
Definition widen (filter_list : list string) (column_width : list (string * nat))
    (item : string * Value) : list (string * nat) :=
  let '(k, v) := item in
  if shown filter_list k then
    let column_width :=               (* setdefault(k, 0) *)
      match Py.dict_get k column_width with
      | Some _ => column_width
      | None => Py.dict_set k 0%nat column_width
      end in
    Py.dict_set k
      (max (default 0%nat (Py.dict_get k column_width))
           (max (String.length (str v)) (String.length k)))
      column_width
  else column_width.

(** The maximum column size, over the records given. *)
Definition column_widths (raw_data : list (list (string * Value)))
    (filter_list : list string) : list (string * nat) :=
  foldl (fun column_width o => foldl (widen filter_list) column_width o) [] raw_data.

(** The header, one key after the other; [None] is the [KeyError] of a
    key that has no width. *)
Fixpoint header_cells (column_width : list (string * nat)) (capital : bool)
    (filter_list : list string) : option (list string) :=
  match filter_list with
  | [] => Some []
  | key :: rest =>
      width ← Py.dict_get key column_width;
      let key := Py.replace (Ascii.ascii_of_nat 95) " "
                   (Py.replace (Ascii.ascii_of_nat 33) "" key) in
      let key := if capital then capitalize key else key in
      cells ← header_cells column_width capital rest;
      Some (Py.ljust width key :: cells)
  end.

(** One cell of a data line. *)
Definition data_cell (column_width : list (string * nat))
    (record : list (string * Value)) (key : string) : string :=
  let width := default (String.length key) (Py.dict_get key column_width) in
  let value := default (Text EmptyString) (Py.dict_get key record) in
  let value := if Py.contains "!" key
               then Text (Py.repeat (Ascii.ascii_of_nat 42) width) else value in
  if match value with
     | Number _ => true
     | Text s => isnumeric s
     | Object _ => false
     end
  then Py.rjust width (str value)
  else Py.ljust width (str value).

Definition data_line (column_width : list (string * nat))
    (filter_list : list string) (record : list (string * Value)) : string :=
  join " | " (map (data_cell column_width record) filter_list).

(** [as_table] from its second statement on: the table of the values of
    the objects, as [values] has given them. *)
Definition as_table (raw_data : list (list (string * Value)))
    (filter_list : list string) (capital : bool) : option string :=
  let column_width := column_widths raw_data filter_list in
  let filter_list :=
    match filter_list with
    | [] => Py.dict_keys column_width
    | _ :: _ => filter_list
    end in
  key_list ← header_cells column_width capital filter_list;
  let output := join " | " key_list +:+ LF in
  let output :=
    output +:+ Py.repeat (Ascii.ascii_of_nat 45) (String.length output) +:+ LF in
  Some (foldl (fun output record =>
                 output +:+ data_line column_width filter_list record +:+ LF)
              output raw_data).

(** [as_table] in full, from the objects. *)
Definition as_table_of_objects (obj : list Obj) (class_formatter : Formatter)
    (filter_list : list string) (capital : bool) : Py.Result string :=
  match all_values obj class_formatter filter_list with
  | Py.Raised exn => Py.Raised exn
  | Py.Ok raw_data =>
      match as_table raw_data filter_list capital with
      | Some output => Py.Ok output
      | None => Py.Raised "KeyError"
      end
  end.

End Table.
End FormattedOutput.

(** ** interactions/general_conf.py *)
Module GeneralConf.

(** What a function of the module shows and asks on the console. *)
Inductive Event :=
  | Print (text : string)                 (* print(text) *)
  | TextInput (prompt prefilled : string) (* TextInput(prompt, prefilled).run() *)
  | Warn (call : Output.LogCall).         (* output.warn(...) *)

(** How a function that talks to the user ends: with a value, with an
    exception, or still asking when the answers given are used up. *)
Inductive Outcome (A : Type) :=
  | Done (a : A)
  | Raise (exn : string)
  | Asking.
Arguments Done {A} a.
Arguments Raise {A} exn.
Arguments Asking {A}.

(** What one [TextInput(...).run()] does: it returns the text the user
    typed, or raises.  [ask_additional_packages_to_install] is given the
    texts alone: its runs are those on which [run] returns. *)
Inductive Answer :=
  | Typed (text : string)
  | Failed (exn : string).

(** The menu of lib/menu is not among the sources: a [Menu] is the
    arguments a function constructs it with, and [run] is taken as
    given. *)
Inductive MenuSelectionType := Selection | Skip | Reset.

Record MenuSelection := {
  type_ : MenuSelectionType;
  single_value : string
}.

Record Menu := {
  title : string;
  options : list string;
  preset_values : option string;
  default_option : option string;
  sort : option bool;                (* None: not given *)
  preview_size : option (Z * Z)      (* a ratio; None: not given *)
}.

Definition pacman_conf_path : string := "/etc/pacman.conf".
Definition max_downloads : Z := 5.

Section Interactions.
(** The translation lookup [_]. *)
Variable gettext : string -> string.
(** The built-ins [str.strip], [str.split] without argument, and [int]
    of a string, [None] being its [ValueError]. *)
Variable strip : string -> string.
Variable split : string -> list string.
Variable int : string -> option Z.
(** How an f-string renders a list of strings. *)
Variable repr : list string -> string.
(** [validate_package_list] of lib/packages, not among the sources: the
    valid and the invalid packages of a list, on the runs on which it
    returns. *)
Variable validate_package_list : list string -> list string * list string.
(** [storage['arguments']['offline']] and [...['no_pkg_lookups']]. *)
Variable offline no_pkg_lookups : bool.

Definition hostname_prompt : string := "Desired hostname for the installation: ".

Fixpoint ask_hostname (preset : string) (answers : list Answer)
    : list Event * Outcome string :=
  let asked := TextInput (gettext hostname_prompt) preset in
  match answers with
  | [] => ([asked], Asking)
  | Failed exn :: _ => ([asked], Raise exn)
  | Typed answer :: rest =>
      let hostname := strip answer in
      if String.eqb hostname "" then
        let '(evs, r) := ask_hostname preset rest in (asked :: evs, r)
      else ([asked], Done hostname)
  end.

Definition packages_prompt : string :=
  "Write additional packages to install (space separated, leave blank to skip): ".

(** [read_packages], on one answer of the user. *)
Definition read_packages (p : list string) (answer : string)
    : Event * list string :=
  let display := join " " p in
  let input_packages := strip answer in
  (TextInput (gettext packages_prompt) display,
   if String.eqb input_packages "" then [] else split input_packages).

(** The [while True] of [ask_additional_packages_to_install]. *)
Fixpoint verify_packages (answers : list string) (packages : list string)
    : list Event * Outcome (list string) :=
  match packages with
  | [] => ([], Done packages)
  | _ :: _ =>
      let verifying :=
        Print (gettext "Verifying that additional packages exist (this might take a few seconds)") in
      let '(valid, invalid) := validate_package_list packages in
      match invalid with
      | [] => ([verifying], Done packages)
      | _ :: _ =>
          let warned :=
            Warn (Output.warn
                    ["Some packages could not be found in the repository: " +:+ repr invalid]) in
          match answers with
          | [] =>
              ([verifying; warned; TextInput (gettext packages_prompt) (join " " valid)],
               Asking)
          | answer :: rest =>
              let '(asked, packages') := read_packages valid answer in
              let '(evs, r) := verify_packages rest packages' in
              (verifying :: warned :: asked :: evs, r)
          end
      end
  end.

Definition ask_additional_packages_to_install (preset : list string)
    (answers : list string) : list Event * Outcome (list string) :=
  let intro :=
    [ Print (gettext "Only packages such as base, base-devel, linux, linux-firmware, efibootmgr and optional profile packages are installed.");
      Print (gettext "If you desire a web browser, such as firefox or chromium, you may specify it in the following prompt.") ] in
  match answers with
  | [] => (intro ++ [TextInput (gettext packages_prompt) (join " " preset)], Asking)
  | answer :: rest =>
      let '(asked, packages) := read_packages preset answer in
      if negb offline && negb no_pkg_lookups then
        let '(evs, r) := verify_packages rest packages in
        (intro ++ asked :: evs, r)
      else (intro ++ [asked], Done packages)
  end.

(** The number [add_number_of_parrallel_downloads] makes of what [int]
    read. *)
Definition clamp_downloads (input_number : Z) : Z :=
  if input_number <=? 0 then 0
  else if input_number >? max_downloads then max_downloads
  else input_number.

Definition downloads_prompt : string := "[Default value: 0] > ".

(** Its [while True].  The [except] names no exception: it catches what
    [int] raises and what [run] raises alike. *)
Fixpoint read_downloads (answers : list Answer) : list Event * Outcome Z :=
  let asked := TextInput (gettext downloads_prompt) EmptyString in
  match answers with
  | [] => ([asked], Asking)
  | answer :: rest =>
      let read :=
        match answer with
        | Typed text =>
            let text := strip text in
            if String.eqb text "" then Some 0 else int text
        | Failed _ => None
        end in
      match read with
      | Some input_number => ([asked], Done (clamp_downloads input_number))
      | None =>
          let invalid :=
            Print (gettext ("Invalid input! Try again with a valid input [1 to "
                            +:+ pretty max_downloads +:+ ", or 0 to disable]")) in
          let '(evs, r) := read_downloads rest in
          (asked :: invalid :: evs, r)
      end
  end.

(** What is written for one line of the file. *)
Definition write_line (input_number : Z) (line : string) : string :=
  if Py.contains "ParallelDownloads" line then
    if negb (input_number =? 0)
    then "ParallelDownloads = " +:+ pretty (input_number + 1) +:+ LF
    else "#ParallelDownloads = 0" +:+ LF
  else line +:+ LF.

Definition write_conf (input_number : Z) (content : string) : string :=
  let pacman_conf := Py.split_on (Ascii.ascii_of_nat 10) content in
  String.concat "" (map (write_line input_number) pacman_conf).

(** The file is a text, as Python's text mode reads and writes it: a line
    end with a carriage return is read as a line feed.  [conf] is what
    opening [pacman_conf_path] and reading it gives, the text or the
    exception raised; [writing] is the exception that opening it again,
    writing the lines or closing it raises, if any.  The function returns
    its number, having left the text given with it in the file. *)
Definition add_number_of_parrallel_downloads (input_number : option Z)
    (answers : list Answer) (conf : Py.Result string) (writing : option string)
    : list Event * Outcome (Z * string) :=
  let intro :=
    [ Print (gettext "This option enables the number of parallel downloads that can occur during installation");
      Print (gettext ("Enter the number of parallel downloads to be enabled." +:+ LF
                      +:+ " (Enter a value between 1 to " +:+ pretty max_downloads +:+ ")"
                      +:+ LF +:+ "Note:"));
      Print (gettext (" - Maximum value   : " +:+ pretty max_downloads
                      +:+ " ( Allows " +:+ pretty max_downloads
                      +:+ " parallel downloads, allows " +:+ pretty (max_downloads + 1)
                      +:+ " downloads at a time )"));
      Print (gettext " - Minimum value   : 1 ( Allows 1 parallel download, allows 2 downloads at a time )");
      Print (gettext " - Disable/Default : 0 ( Disables parallel downloading, allows only 1 download at a time )") ] in
  let '(evs, r) := read_downloads answers in
  (intro ++ evs,
   match r with
   | Done n =>
       match conf with
       | Py.Raised exn => Raise exn
       | Py.Ok content =>
           match writing with
           | Some exn => Raise exn
           | None => Done (n, write_conf n content)
           end
       end
   | Raise exn => Raise exn
   | Asking => Asking
   end).

(** [select_language]: the menu it shows, and what it makes of the
    choice. *)
Definition select_language_menu (kb_lang : list string) (preset : option string) : Menu :=
  let sorted_kb_lang :=
    Py.sorted (fun a b => (String.length a <=? String.length b)%nat)
           (Py.sorted String.leb kb_lang) in
  {| title := gettext "Select keyboard layout";
     options := sorted_kb_lang;
     preset_values := preset;
     default_option := None;
     sort := Some false;
     preview_size := None |}.

Definition select_language (run : Menu -> MenuSelection) (kb_lang : list string)
    (preset : option string) : option string :=
  let choice := run (select_language_menu kb_lang preset) in
  match type_ choice with
  | Skip => preset
  | Selection => Some (single_value choice)
  | Reset => None
  end.

Section Languages.
(** [Language] of lib/translationhandler, not among the sources. *)
Variable Language : Type.
Variable display_name : Language -> string.

Definition language_options (languages : list Language) : list (string * Language) :=
  foldl (fun options lang => Py.dict_set (display_name lang) lang options) [] languages.

Definition select_archinstall_language_menu (languages : list Language)
    (preset : Language) : Menu :=
  {| title :=
       "NOTE: If a language can not displayed properly, a proper font must be set manually in the console." +:+ LF
       +:+ "All available fonts can be found in " +:+ String (Ascii.ascii_of_nat 34) "/usr/share/kbd/consolefonts"
       +:+ String (Ascii.ascii_of_nat 34) LF
       +:+ "e.g. setfont LatGrkCyr-8x16 (to display latin/greek/cyrillic characters)" +:+ LF;
     options := Py.dict_keys (language_options languages);
     preset_values := None;
     default_option := Some (display_name preset);
     sort := None;
     preview_size := Some (1, 2) |}.

Definition select_archinstall_language (run : Menu -> MenuSelection)
    (languages : list Language) (preset : Language) : Outcome Language :=
  let options := language_options languages in
  let choice := run (select_archinstall_language_menu languages preset) in
  match type_ choice with
  | Skip => Done preset
  | Selection =>
      match Py.dict_get (single_value choice) options with
      | Some lang => Done lang
      | None => Raise "KeyError"
      end
  | Reset => Raise "ValueError"
  end.

End Languages.
End Interactions.
End GeneralConf.

(** ** Reading a list of effects *)

Definition is_append (e : Effect) : bool :=
  match e with AppendFile _ _ => true | _ => false end.

Definition is_stdout (e : Effect) : bool :=
  match e with StdoutWrite _ => true | _ => false end.

(** The text a styled line ends with: the reset sequence. *)
Definition RESET : string := ESC +:+ "[0m".

(** ** Reading what a function of general_conf did *)

Definition is_text_input (e : GeneralConf.Event) : bool :=
  match e with GeneralConf.TextInput _ _ => true | _ => false end.

Definition is_warn (e : GeneralConf.Event) : bool :=
  match e with GeneralConf.Warn _ => true | _ => false end.

Definition is_print (e : GeneralConf.Event) : bool :=
  match e with GeneralConf.Print _ => true | _ => false end.

(** The packages typed in one answer, as [read_packages] reads them. *)
Definition typed_packages (strip : string -> string) (split : string -> list string)
    (answer : string) : list string :=
  (GeneralConf.read_packages (fun s => s) strip split [] answer).2.

(** An answer the loop of [add_number_of_parrallel_downloads] takes for
    the number [v]: a blank one for 0, any other for what [int] reads. *)
Definition accepted_number (strip : string -> string) (int : string -> option Z)
    (answer : GeneralConf.Answer) (v : Z) : Prop :=
  match answer with
  | GeneralConf.Typed text =>
      if String.eqb (strip text) "" then v = 0 else int (strip text) = Some v
  | GeneralConf.Failed _ => False
  end.

(** An answer it asks again after: one [int] cannot read, or a [run]
    that raised. *)
Definition rejected_number (strip : string -> string) (int : string -> option Z)
    (answer : GeneralConf.Answer) : Prop :=
  match answer with
  | GeneralConf.Typed text => strip text <> EmptyString /\ int (strip text) = None
  | GeneralConf.Failed _ => True
  end.

(** The line feed, as a character. *)
Definition NL : Ascii.ascii := Ascii.ascii_of_nat 10.

(** Whether a character occurs in a text. *)
Fixpoint has_char (c : Ascii.ascii) (s : string) : bool :=
  match s with
  | EmptyString => false
  | String a s' => Ascii.eqb a c || has_char c s'
  end.

(** The line [add_number_of_parrallel_downloads] puts in the place of one
    that mentions the setting. *)
Definition downloads_setting (input_number : Z) : string :=
  if input_number =? 0 then "#ParallelDownloads = 0"
  else "ParallelDownloads = " +:+ pretty (input_number + 1).

Definition set_downloads_line (input_number : Z) (line : string) : string :=
  if Py.contains "ParallelDownloads" line
  then downloads_setting input_number else line.

(** A column wide enough for a text of [n] characters. *)
Definition covers (column_width : list (string * nat)) (k : string) (n : nat) : Prop :=
  exists w, Py.dict_get k column_width = Some w /\ (n <= w)%nat.

(** The widths of the columns shown. *)
Definition widths_of (column_width : list (string * nat)) (keys : list string) : list nat :=
  map (fun key => default 0%nat (Py.dict_get key column_width)) keys.

(** The length of texts of the given lengths, joined by [' | ']. *)
Definition joined_length (ws : list nat) : nat :=
  (sum_list ws + 3 * (length ws - 1))%nat.

(** Records that differ at most in what is behind the keys with a ['!'],
    and there not in the length of what is shown. *)
Definition same_but_masked (r1 r2 : list (string * FormattedOutput.Value)) : Prop :=
  Forall2 (fun i1 i2 =>
             i1.1 = i2.1 /\
             String.length (FormattedOutput.str i1.2)
               = String.length (FormattedOutput.str i2.2) /\
             (Py.contains "!" i1.1 = false -> i1.2 = i2.2)) r1 r2.

(** The order of the options of [select_language]: shorter first, and
    alphabetical among the texts of one length. *)
Definition by_length_then_name (a b : string) : Prop :=
  (String.length a < String.length b)%nat \/
  (String.length a = String.length b /\ String.leb a b = true).

(** ** Sample built-ins and collaborators

    Stand-ins for what the functions above take as given, to run them
    on. *)

Fixpoint sample_lstrip (s : string) : string :=
  match s with
  | EmptyString => EmptyString
  | String a s' => if Ascii.is_space a then sample_lstrip s' else s
  end.

Definition sample_strip (s : string) : string :=
  String.rev (sample_lstrip (String.rev (sample_lstrip s))).

Fixpoint sample_digits (acc : Z) (s : string) : option Z :=
  match s with
  | EmptyString => Some acc
  | String a s' =>
      match Ascii.is_nat a with
      | Some d => sample_digits (10 * acc + Z.of_nat d) s'
      | None => None
      end
  end.

Definition sample_int (s : string) : option Z :=
  match s with
  | EmptyString => None
  | String _ _ => sample_digits 0 s
  end.

Definition sample_repr (l : list string) : string := "[" +:+ join ", " l +:+ "]".

(** A repository that knows two packages. *)
Definition sample_validate (l : list string) : list string * list string :=
  (List.filter (fun p => bool_decide (p ∈ ["vim"; "git"])) l,
   List.filter (fun p => negb (bool_decide (p ∈ ["vim"; "git"]))) l).

Definition sample_conf : string :=
  "#ParallelDownloads = 5" +:+ LF +:+ "Color" +:+ LF.

Definition plain_conf : string := "Color" +:+ LF.

(** A user who picks the option [name]. *)
Definition picks (name : string) (m : GeneralConf.Menu) : GeneralConf.MenuSelection :=
  {| GeneralConf.type_ := GeneralConf.Selection; GeneralConf.single_value := name |}.

Definition sample_isnumeric (s : string) : bool :=
  match s with
  | EmptyString => false
  | String _ _ => forallb (fun a => bool_decide (is_Some (Ascii.is_nat a)))
                          (String.list_ascii_of_string s)
  end.

Definition sample_users : list (list (string * FormattedOutput.Value)) :=
  [ [ ("name", FormattedOutput.Text "root");
      ("!password", FormattedOutput.Text "secret");
      ("uid", FormattedOutput.Number "0") ];
    [ ("name", FormattedOutput.Text "alice");
      ("!password", FormattedOutput.Text "hunter");
      ("uid", FormattedOutput.Number "1000") ] ].

(** The same users with other passwords of the same length. *)
Definition sample_users' : list (list (string * FormattedOutput.Value)) :=
  [ [ ("name", FormattedOutput.Text "root");
      ("!password", FormattedOutput.Text "123456");
      ("uid", FormattedOutput.Number "0") ];
    [ ("name", FormattedOutput.Text "alice");
      ("!password", FormattedOutput.Text "qwerty");
      ("uid", FormattedOutput.Number "1000") ] ].

(** Users as objects: dataclasses of these fields. *)
Definition sample_objects : list FormattedOutput.Obj :=
  map (fun d => {| FormattedOutput.getattr := fun _ => None;
                   FormattedOutput.asdict := Some d;
                   FormattedOutput.dict_ := Some d |}) sample_users.

Definition sample_table : string :=
  Eval vm_compute in
    default EmptyString
      (FormattedOutput.as_table untranslated sample_isnumeric sample_users [] false).

Section Gate.
Variable probe : string -> nat -> bool.
Variable gettext : string -> string.

(** The loop, one iteration unfolded. *)
Lemma wait_loop_S fuel started w :
  wait_loop probe gettext (S fuel) started w =
    if probe pacman_db_lock (checks w) then
      if now w + poll_interval - started >? ceiling
      then (Exited 1, aborted (gettext error_text) (slept (checked true w)))
      else wait_loop probe gettext fuel started (slept (checked true w))
    else (Returned tt, checked false w).
Proof.
  cbn [wait_loop]. unfold bind at 1. unfold exists_.
  destruct (probe pacman_db_lock (checks w)) eqn:Hl; [|reflexivity].
  unfold bind, sleep, time, when, error, exit, ret; cbn.
  destruct (_ >? _); reflexivity.
Qed.

Lemma run_pacman_unfold fuel args default_cmd w :
  run_pacman probe gettext fuel args default_cmd w =
    let b := probe pacman_db_lock (checks w) in
    let w1 := checked b w in
    let w2 := if b then emit (Log (Output.warn [gettext warn_text])) w1 else w1 in
    match wait_loop probe gettext fuel (now w) w2 with
    | (Returned _, w') => (Returned {| cmd := default_cmd +:+ " " +:+ args |}, w')
    | (Exited c, w') => (Exited c, w')
    | (Polling, w') => (Polling, w')
    end.
Proof.
  unfold run_pacman, bind, exists_, when, warn, time, ret; cbn.
  destruct (probe pacman_db_lock (checks w)); cbn;
    destruct (wait_loop _ _ _ _ _) as [[?|?|] ?]; reflexivity.
Qed.

Lemma wait_loop_polls fuel started w :
  polls probe (gettext error_text) started w
    (fst (wait_loop probe gettext fuel started w))
    (snd (wait_loop probe gettext fuel started w)).
Proof.
  revert w. induction fuel as [|fuel IH]; intros w.
  - apply polls_cut.
  - rewrite wait_loop_S.
    destruct (probe pacman_db_lock (checks w)) eqn:Hl.
    + destruct (Z.gtb_spec (now w + poll_interval - started) ceiling) as [Hgt|Hle].
      * apply polls_timeout; [exact Hl | lia].
      * apply polls_again; [exact Hl | exact Hle | apply IH].
    + apply polls_clear. exact Hl.
Qed.

(** What the loop adds to the trace is paced, the clock stays with it. *)
Lemma polls_paced msg started w r w' :
  polls probe msg started w r w' ->
  exists evs, trace w' = trace w ++ evs /\ paced msg (now w) r evs.
Proof.
  induction 1 as [w Hl | w Hl Hgt | w r w' Hl Hle Hp IH | w].
  - eexists. split; [reflexivity | apply paced_clear].
  - exists [ (now w, Exists pacman_db_lock true); (now w, Sleep poll_interval);
             (now w + poll_interval, Log (Output.error [msg]));
             (now w + poll_interval, Exit 1) ].
    split; [| apply paced_timeout].
    cbn. rewrite <- !app_assoc. reflexivity.
  - destruct IH as (evs & Htr & Hpaced). cbn in Htr, Hpaced.
    exists ((now w, Exists pacman_db_lock true) :: (now w, Sleep poll_interval) :: evs).
    split; [| apply paced_again; exact Hpaced].
    rewrite Htr, <- !app_assoc. reflexivity.
  - exists []. split; [by rewrite app_nil_r | apply paced_cut].
Qed.

Lemma enough_eq : enough = 2401%nat.
Proof. reflexivity. Qed.

Lemma count_app p tr1 tr2 :
  count p (tr1 ++ tr2) = (count p tr1 + count p tr2)%nat.
Proof.
  induction tr1 as [|[t c] tr1 IH]; cbn; [reflexivity|].
  rewrite IH. lia.
Qed.

(** A loop that returns saw the lock absent at its last check. *)
Lemma polls_returned msg started w u w' :
  polls probe msg started w (Returned u) w' ->
  exists k, checks w' = S k /\ probe pacman_db_lock k = false.
Proof.
  remember (Returned u) as r eqn:Hr.
  induction 1 as [w Hl | w Hl Hgt | w r w' Hl Hle Hp IH | w]; try discriminate.
  - exists (checks w). split; [reflexivity | exact Hl].
  - apply IH, Hr.
Qed.

(** A loop that exits does so one sleep past the ceiling. *)
Lemma polls_exited msg started w c w' :
  polls probe msg started w (Exited c) w' ->
  now w - started <= ceiling ->
  c = 1 /\ ceiling < now w' - started <= ceiling + poll_interval.
Proof.
  remember (Exited c) as r eqn:Hr.
  induction 1 as [w Hl | w Hl Hgt | w r w' Hl Hle Hp IH | w]; try discriminate;
    intros Hinv.
  - injection Hr as <-. cbn. split; [reflexivity | lia].
  - apply IH; [exact Hr | cbn; lia].
Qed.

(** The clock moves by one interval for each sleep the loop adds. *)
Lemma polls_clock msg started w r w' :
  polls probe msg started w r w' ->
  now w' - now w = poll_interval * Z.of_nat (count is_sleep (trace w') - count is_sleep (trace w))
  /\ (count is_sleep (trace w) <= count is_sleep (trace w'))%nat.
Proof.
  induction 1 as [w Hl | w Hl Hgt | w r w' Hl Hle Hp IH | w]; cbn.
  - rewrite count_app; cbn. split; [|lia].
    replace (_ - _)%nat with 0%nat by lia. lia.
  - rewrite !count_app; cbn. split; [|lia].
    replace (_ - _)%nat with 1%nat by lia. lia.
  - cbn in IH. rewrite !count_app in IH; cbn in IH.
    destruct IH as [IH1 IH2]. split; [|lia].
    replace (count is_sleep (trace w') - count is_sleep (trace w))%nat
      with (S (count is_sleep (trace w') - (count is_sleep (trace w) + 0 + 1)))%nat by lia.
    lia.
  - split; [|lia]. replace (_ - _)%nat with 0%nat by lia. lia.
Qed.

Section Fuel.
Variable started : Z.

(** With enough fuel the model's bound is never what stops the loop. *)
Lemma wait_loop_total fuel w :
  now w - started <= ceiling ->
  ceiling - (now w - started) < poll_interval * Z.of_nat fuel ->
  fst (wait_loop probe gettext fuel started w) <> Polling.
Proof.
  revert w. induction fuel as [|fuel IH]; intros w Hinv Hfuel.
  - exfalso. cbn in Hfuel. lia.
  - rewrite wait_loop_S.
    destruct (probe pacman_db_lock (checks w)); [|discriminate].
    destruct (Z.gtb_spec (now w + poll_interval - started) ceiling) as [Hgt|Hle];
      [discriminate|].
    apply IH; cbn; unfold poll_interval in *; lia.
Qed.

(** A lock held at every check up to the ceiling makes the loop exit. *)
Lemma wait_loop_held fuel w :
  now w - started <= ceiling ->
  ceiling - (now w - started) < poll_interval * Z.of_nat fuel ->
  (forall k : nat, (checks w <= k)%nat ->
     poll_interval * (Z.of_nat k - Z.of_nat (checks w)) <= ceiling - (now w - started) ->
     probe pacman_db_lock k = true) ->
  fst (wait_loop probe gettext fuel started w) = Exited 1.
Proof.
  revert w. induction fuel as [|fuel IH]; intros w Hinv Hfuel Hheld.
  - exfalso. cbn in Hfuel. lia.
  - rewrite wait_loop_S.
    rewrite (Hheld (checks w)) by (unfold poll_interval; lia).
    destruct (Z.gtb_spec (now w + poll_interval - started) ceiling) as [Hgt|Hle];
      [reflexivity|].
    apply IH; cbn; try (unfold poll_interval in *; lia).
    intros k Hk Hb. apply Hheld; unfold poll_interval in *; lia.
Qed.


(** A loop that left on its own leaves the same way with more fuel. *)
Lemma wait_loop_one_more fuel w :
  fst (wait_loop probe gettext fuel started w) <> Polling ->
  wait_loop probe gettext (S fuel) started w = wait_loop probe gettext fuel started w.
Proof.
  revert w. induction fuel as [|fuel IH]; intros w Hleft.
  - exfalso. apply Hleft. reflexivity.
  - rewrite (wait_loop_S (S fuel) started w), (wait_loop_S fuel started w).
    rewrite (wait_loop_S fuel started w) in Hleft.
    destruct (probe pacman_db_lock (checks w)); [|reflexivity].
    destruct (now w + poll_interval - started >? ceiling); [reflexivity|].
    apply IH, Hleft.
Qed.

Lemma wait_loop_more_fuel fuel fuel' w :
  fst (wait_loop probe gettext fuel started w) <> Polling ->
  (fuel <= fuel')%nat ->
  wait_loop probe gettext fuel' started w = wait_loop probe gettext fuel started w.
Proof.
  intros Hleft. induction 1 as [|m Hle IH]; [reflexivity|].
  rewrite wait_loop_one_more; [exact IH|]. rewrite IH. exact Hleft.
Qed.

End Fuel.

(** *** What a paced trace holds *)

Lemma paced_no_warning msg t r evs :
  paced msg t r evs -> count is_warning evs = 0%nat.
Proof. induction 1; cbn; auto. Qed.

Lemma paced_errors msg t r evs :
  paced msg t r evs ->
  count is_error evs = match r with Exited _ => 1%nat | _ => 0%nat end.
Proof. induction 1; cbn; auto. Qed.

Lemma paced_exits msg t r evs :
  paced msg t r evs ->
  count is_exit evs = match r with Exited _ => 1%nat | _ => 0%nat end.
Proof. induction 1; cbn; auto. Qed.

Lemma paced_head msg t r evs :
  paced msg t r evs ->
  evs = [] \/ exists b rest, evs = (t, Exists pacman_db_lock b) :: rest.
Proof. destruct 1; eauto. Qed.

Lemma paced_returned_last msg t u evs :
  paced msg t (Returned u) evs ->
  exists pre t', evs = pre ++ [(t', Exists pacman_db_lock false)].
Proof.
  remember (Returned u) as r eqn:Hr.
  induction 1 as [t | t | t | t r evs Hp IH]; try discriminate.
  - exists [], t. reflexivity.
  - destruct (IH Hr) as (pre & t' & ->).
    exists ((t, Exists pacman_db_lock true) :: (t, Sleep poll_interval) :: pre), t'.
    reflexivity.
Qed.

Lemma paced_exited_last msg t c evs :
  paced msg t (Exited c) evs ->
  c = 1 /\
  exists pre t', evs = pre ++ [(t', Log (Output.error [msg])); (t', Exit 1)].
Proof.
  remember (Exited c) as r eqn:Hr.
  induction 1 as [t | t | t | t r evs Hp IH]; try discriminate.
  - injection Hr as <-. split; [reflexivity|].
    exists [(t, Exists pacman_db_lock true); (t, Sleep poll_interval)], (t + poll_interval).
    reflexivity.
  - destruct (IH Hr) as (-> & pre & t' & ->). split; [reflexivity|].
    exists ((t, Exists pacman_db_lock true) :: (t, Sleep poll_interval) :: pre), t'.
    reflexivity.
Qed.

Lemma paced_exited_first msg t c evs :
  paced msg t (Exited c) evs -> first_time saw_lock evs = Some t.
Proof. inversion 1; reflexivity. Qed.

(** Between two successive checks of a paced trace lies one sleep of one
    interval, and nothing else. *)
Lemma paced_gap msg t r evs a t1 p1 b1 mid t2 p2 b2 c :
  paced msg t r evs ->
  evs = a ++ (t1, Exists p1 b1) :: mid ++ (t2, Exists p2 b2) :: c ->
  count is_check mid = 0%nat ->
  mid = [(t1, Sleep poll_interval)] /\ t2 = t1 + poll_interval /\ b1 = true.
Proof.
  intros Hp. revert a.
  induction Hp as [t | t | t | t r evs Hp IH]; intros a Heq Hmid.
  - destruct a; discriminate.
  - destruct a as [|x a]; [destruct mid; discriminate|].
    destruct a; discriminate.
  - exfalso.
    destruct a as [|x a]; cbn in Heq.
    + injection Heq as _ _ _ Heq.
      do 3 (destruct mid as [|? mid]; [discriminate|]; injection Heq as _ Heq).
      destruct mid; discriminate.
    + injection Heq as _ Heq.
      do 3 (destruct a as [|? a]; [discriminate|]; injection Heq as _ Heq).
      destruct a; discriminate.
  - destruct a as [|x a]; cbn in Heq.
    + injection Heq as <- <- <- Heq.
      destruct mid as [|y mid]; [discriminate|]. injection Heq as <- Heq.
      destruct (paced_head _ _ _ _ Hp) as [->|(b & rest & ->)];
        [destruct mid; discriminate|].
      destruct mid as [|z mid]; cbn in Heq.
      * injection Heq as <- _ _ _. auto.
      * injection Heq as <- _. cbn in Hmid. discriminate.
    + injection Heq as _ Heq.
      destruct a as [|y a]; [discriminate|]. injection Heq as _ Heq.
      eapply IH; eauto.
Qed.

(** *** The call as a whole *)

Lemma run_pacman_polls fuel args default_cmd t0 :
  let found := probe pacman_db_lock 0 in
  let w0 := entered (gettext warn_text) t0 found in
  exists ru w' evs,
    run_pacman probe gettext fuel args default_cmd (boot t0)
      = (handed {| cmd := default_cmd +:+ " " +:+ args |} ru, w') /\
    wait_loop probe gettext fuel t0 w0 = (ru, w') /\
    polls probe (gettext error_text) t0 w0 ru w' /\
    trace w' = opening (gettext warn_text) t0 found ++ evs /\
    paced (gettext error_text) t0 ru evs.
Proof.
  intros found w0.
  destruct (wait_loop probe gettext fuel t0 w0) as [ru w'] eqn:Hloop.
  pose proof (wait_loop_polls fuel t0 w0) as Hp. rewrite Hloop in Hp. cbn in Hp.
  destruct (polls_paced _ _ _ _ _ Hp) as (evs & Htr & Hpaced).
  exists ru, w', evs. repeat split; try assumption.
  rewrite run_pacman_unfold. cbn zeta.
  replace (if probe pacman_db_lock (checks (boot t0)) then _ else _) with w0.
  - cbn [boot now]. rewrite Hloop. destruct ru; reflexivity.
  - subst w0 found. cbn. destruct (probe pacman_db_lock 0); reflexivity.
Qed.

Lemma enough_fuel (fuel : nat) :
  (enough <= fuel)%nat -> ceiling - 0 < poll_interval * Z.of_nat fuel.
Proof. rewrite enough_eq. unfold ceiling, poll_interval. lia. Qed.

(** With [enough] fuel the call returns or exits. *)
Lemma run_pacman_total fuel args default_cmd t0 :
  (enough <= fuel)%nat ->
  fst (run_pacman probe gettext fuel args default_cmd (boot t0)) <> Polling.
Proof.
  intros Hfuel.
  destruct (run_pacman_polls fuel args default_cmd t0)
    as (ru & w' & evs & -> & Hloop & _).
  pose proof (wait_loop_total t0 fuel
                (entered (gettext warn_text) t0 (probe pacman_db_lock 0))) as Ht.
  rewrite Hloop in Ht. cbn in Ht.
  destruct ru; cbn; try discriminate.
  exfalso. apply Ht; [unfold ceiling; lia | | reflexivity].
  replace (t0 - t0) with 0 by lia. by apply enough_fuel.
Qed.

Lemma first_time_app p a b :
  first_time p (a ++ b)
    = match first_time p a with Some t => Some t | None => first_time p b end.
Proof.
  induction a as [|[t c] a IH]; cbn; [reflexivity|].
  destruct (p c); [reflexivity | exact IH].
Qed.

Lemma first_time_none p a : count p a = 0%nat -> first_time p a = None.
Proof.
  induction a as [|[t c] a IH]; cbn; [reflexivity|].
  destruct (p c); [discriminate | exact IH].
Qed.

(** The exit of a loop that exits is stamped with its final clock. *)
Lemma polls_exit_time msg started w c w' :
  polls probe msg started w (Exited c) w' ->
  count is_exit (trace w) = 0%nat ->
  first_time is_exit (trace w') = Some (now w').
Proof.
  remember (Exited c) as r eqn:Hr.
  induction 1 as [w Hl | w Hl Hgt | w r w' Hl Hle Hp IH | w]; try discriminate;
    intros Hnone.
  - cbn. rewrite !first_time_app, (first_time_none _ _ Hnone). reflexivity.
  - apply IH; [exact Hr|]. cbn. rewrite !count_app, Hnone. reflexivity.
Qed.

(** Beyond [enough], the fuel has no part in what a call does. *)
Lemma run_pacman_fuel fuel args default_cmd t0 :
  (enough <= fuel)%nat ->
  run_pacman probe gettext fuel args default_cmd (boot t0)
    = run_pacman probe gettext enough args default_cmd (boot t0).
Proof.
  intros Hfuel. rewrite !run_pacman_unfold. cbn zeta.
  rewrite (wait_loop_more_fuel _ enough fuel); [reflexivity | | exact Hfuel].
  apply wait_loop_total.
  - destruct (probe pacman_db_lock _); cbn; unfold ceiling; lia.
  - destruct (probe pacman_db_lock _); cbn;
      (replace (t0 - t0) with 0 by lia); by apply enough_fuel.
Qed.

(** The warnings of a call: one when the first check found the lock. *)
Lemma run_pacman_warnings fuel args default_cmd t0 :
  count is_warning
    (trace (snd (run_pacman probe gettext fuel args default_cmd (boot t0))))
  = (if probe pacman_db_lock 0%nat then 1%nat else 0%nat).
Proof.
  destruct (run_pacman_polls fuel args default_cmd t0)
    as (ru & w' & evs & -> & _ & _ & Htr & Hpaced).
  cbn [snd]. rewrite Htr, count_app, (paced_no_warning _ _ _ _ Hpaced).
  unfold opening. destruct (probe pacman_db_lock 0); reflexivity.
Qed.

(** A lock found at every check of the loop up to the ceiling: the loop
    of a call with [enough] fuel exits. *)
Lemma run_pacman_held fuel t0 :
  (forall k : nat, (1 <= k <= enough)%nat -> probe pacman_db_lock k = true) ->
  (enough <= fuel)%nat ->
  fst (wait_loop probe gettext fuel t0
         (entered (gettext warn_text) t0 (probe pacman_db_lock 0%nat)))
  = Exited 1.
Proof.
  intros Hheld Hfuel.
  apply wait_loop_held; cbn.
  - unfold ceiling; lia.
  - replace (t0 - t0) with 0 by lia. by apply enough_fuel.
  - intros k Hk Hb. apply Hheld. rewrite enough_eq.
    unfold ceiling, poll_interval in Hb. lia.
Qed.

(** ** The claims *)

(** C1. A handle is returned only after a check of the lock path found it
    absent: when the call returns, the last call of its trace is an
    existence check of [pacman_db_lock] that answered [false], and that
    is what the lock was at that check.  Every other call has exited the
    process with status 1 after the error message, or is a loop that the
    model's bound cut short, which [enough] fuel rules out. *)
Theorem no_handle_while_locked fuel args default_cmd t0 :
  match run_pacman probe gettext fuel args default_cmd (boot t0) with
  | (Returned h, w) =>
      exists pre t k,
        trace w = pre ++ [(t, Exists pacman_db_lock false)] /\
        checks w = S k /\ probe pacman_db_lock k = false
  | (Exited c, w) =>
      c = 1 /\
      exists pre t,
        trace w = pre ++ [(t, Log (Output.error [gettext error_text])); (t, Exit 1)]
  | (Polling, w) => (fuel < enough)%nat
  end.
Proof.
  pose proof (run_pacman_total fuel args default_cmd t0) as Htotal.
  destruct (run_pacman_polls fuel args default_cmd t0)
    as (ru & w' & evs & Hrun & _ & Hp & Htr & Hpaced).
  rewrite Hrun in Htotal |- *. destruct ru as [u|c|]; cbn in *.
  - destruct (paced_returned_last _ _ _ _ Hpaced) as (pre & t & ->).
    destruct (polls_returned _ _ _ _ _ Hp) as (k & Hk & Hl).
    exists (opening (gettext warn_text) t0 (probe pacman_db_lock 0) ++ pre), t, k.
    rewrite Htr, <- app_assoc. auto.
  - destruct (paced_exited_last _ _ _ _ Hpaced) as (-> & pre & t & ->).
    split; [reflexivity|].
    exists (opening (gettext warn_text) t0 (probe pacman_db_lock 0) ++ pre), t.
    rewrite Htr, <- app_assoc. reflexivity.
  - destruct (decide (fuel < enough)%nat) as [|Hge]; [assumption|].
    exfalso. apply Htotal; [lia | reflexivity].
Qed.

Lemma catching_exited {A} (m : M A) handler w c w' :
  m w = (Exited c, w') -> catching m handler w = handler c w'.
Proof. intros Hm. unfold catching. by rewrite Hm. Qed.

(** C3, as amended. When the lock is found at every check the loop makes
    up to the ceiling, the call emits one error-level message and at
    once, at the same clock, calls [exit(1)]: it returns no handle, the
    outcome is the [SystemExit] of status 1, other than 0, which ends
    the process where no caller catches it, and which a caller's
    [except] clause receives, with that status, where one does. *)
Theorem timeout_raises_system_exit fuel args default_cmd t0 :
  (forall k : nat, (1 <= k <= enough)%nat -> probe pacman_db_lock k = true) ->
  (enough <= fuel)%nat ->
  exists c w pre t,
    run_pacman probe gettext fuel args default_cmd (boot t0) = (Exited c, w) /\
    c = 1 /\ c <> 0 /\
    count is_error (trace w) = 1%nat /\
    count is_exit (trace w) = 1%nat /\
    trace w = pre ++ [(t, Log (Output.error [gettext error_text])); (t, Exit c)] /\
    forall handler : Z -> M SysCommand,
      catching (run_pacman probe gettext fuel args default_cmd) handler (boot t0)
      = handler c w.
Proof.
  intros Hheld Hfuel.
  destruct (run_pacman_polls fuel args default_cmd t0)
    as (ru & w' & evs & Hrun & Hloop & Hp & Htr & Hpaced).
  set (found := probe pacman_db_lock 0) in *.
  set (w0 := entered (gettext warn_text) t0 found) in *.
  assert (ru = Exited 1) as ->.
  { pose proof (run_pacman_held fuel t0 Hheld Hfuel) as Hx. fold found w0 in Hx.
    rewrite Hloop in Hx. exact Hx. }
  destruct (paced_exited_last _ _ _ _ Hpaced) as (_ & pre & t & Hevs).
  exists 1, w', (opening (gettext warn_text) t0 found ++ pre), t.
  cbn in Hrun. repeat split; try discriminate.
  - exact Hrun.
  - rewrite Htr, count_app, (paced_errors _ _ _ _ Hpaced).
    unfold opening. destruct found; reflexivity.
  - rewrite Htr, count_app, (paced_exits _ _ _ _ Hpaced).
    unfold opening. destruct found; reflexivity.
  - rewrite Htr, Hevs, <- app_assoc. reflexivity.
  - intros handler. by apply catching_exited.
Qed.

(** C4, as amended. When the lock is absent at the first existence check
    and at the check of the loop condition that follows it, the call
    returns its handle at the clock it started at, having made those two
    checks and nothing else: no sleep, no warning. *)
Theorem immediate_path fuel args default_cmd t0 :
  probe pacman_db_lock 0%nat = false ->
  probe pacman_db_lock 1%nat = false ->
  (1 <= fuel)%nat ->
  exists w,
    run_pacman probe gettext fuel args default_cmd (boot t0)
      = (Returned {| cmd := default_cmd +:+ " " +:+ args |}, w) /\
    now w = t0 /\
    trace w = [ (t0, Exists pacman_db_lock false);
                (t0, Exists pacman_db_lock false) ] /\
    count is_sleep (trace w) = 0%nat /\
    count is_warning (trace w) = 0%nat.
Proof.
  intros H0 H1 Hfuel.
  destruct fuel as [|fuel]; [lia|].
  rewrite run_pacman_unfold. cbn zeta. cbn [boot checks now].
  rewrite H0. rewrite wait_loop_S. cbn [checked checks boot].
  rewrite H1. eexists. split; [reflexivity|]. cbn. auto.
Qed.


(** C6. A call emits at most one warning-level message: one when its
    first existence check finds the lock, none otherwise.  The warning
    comes right after that first check, and the calls the loop makes
    hold no warning. *)
Theorem warns_at_most_once fuel args default_cmd t0 :
  let tr := trace (snd (run_pacman probe gettext fuel args default_cmd (boot t0))) in
  (count is_warning tr <= 1)%nat /\
  count is_warning tr = (if probe pacman_db_lock 0%nat then 1%nat else 0%nat) /\
  exists evs,
    tr = (t0, Exists pacman_db_lock (probe pacman_db_lock 0%nat))
           :: (if probe pacman_db_lock 0%nat
               then [(t0, Log (Output.warn [gettext warn_text]))] else [])
           ++ evs /\
    count is_warning evs = 0%nat.
Proof.
  destruct (run_pacman_polls fuel args default_cmd t0)
    as (ru & w' & evs & -> & _ & _ & Htr & Hpaced).
  cbn zeta. cbn [snd]. rewrite Htr.
  pose proof (paced_no_warning _ _ _ _ Hpaced) as Hnone.
  rewrite count_app, Hnone. unfold opening.
  destruct (probe pacman_db_lock 0); cbn; repeat split; try lia; eauto.
Qed.

(** C7. Two successive checks of the loop are one sleep of 250 ms apart:
    whenever the trace of a call holds two existence checks with no
    check between them, the first of which is not the opening check of
    the call, what lies between them is one [Sleep 250] issued at the
    clock of the first, the second is stamped 250 ms later, and the
    first had found the lock. *)
Theorem poll_interval_fixed fuel args default_cmd t0 a t1 p1 b1 mid t2 p2 b2 c :
  trace (snd (run_pacman probe gettext fuel args default_cmd (boot t0)))
    = a ++ (t1, Exists p1 b1) :: mid ++ (t2, Exists p2 b2) :: c ->
  a <> [] ->
  count is_check mid = 0%nat ->
  mid = [(t1, Sleep 250)] /\ t2 = t1 + 250 /\ b1 = true.
Proof.
  destruct (run_pacman_polls fuel args default_cmd t0)
    as (ru & w' & evs & -> & _ & _ & Htr & Hpaced).
  cbn [snd]. rewrite Htr. unfold opening. intros Heq Ha Hmid.
  destruct a as [|x a]; [congruence|]. injection Heq as _ Heq.
  destruct (probe pacman_db_lock 0).
  - destruct a as [|y a]; [discriminate|]. injection Heq as _ Heq.
    exact (paced_gap _ _ _ _ _ _ _ _ _ _ _ _ _ Hpaced Heq Hmid).
  - exact (paced_gap _ _ _ _ _ _ _ _ _ _ _ _ _ Hpaced Heq Hmid).
Qed.

(** C9. The command named has no part in the gate: two calls that differ
    in [default_cmd] alone leave the same world (clock, checks made and
    trace of checks, sleeps, messages and exit) and the same kind of
    outcome; when they return, each returns the handle of its own
    command. *)
Theorem gate_ignores_command fuel args cmd1 cmd2 t0 :
  let r1 := run_pacman probe gettext fuel args cmd1 (boot t0) in
  let r2 := run_pacman probe gettext fuel args cmd2 (boot t0) in
  snd r1 = snd r2 /\
  same_gate (fst r1) (fst r2) /\
  forall h1, fst r1 = Returned h1 ->
    h1 = {| cmd := cmd1 +:+ " " +:+ args |} /\
    fst r2 = Returned {| cmd := cmd2 +:+ " " +:+ args |}.
Proof.
  destruct (run_pacman_polls fuel args cmd1 t0)
    as (ru1 & w1 & evs1 & -> & Hloop1 & _).
  destruct (run_pacman_polls fuel args cmd2 t0)
    as (ru2 & w2 & evs2 & -> & Hloop2 & _).
  rewrite Hloop1 in Hloop2. injection Hloop2 as <- <-.
  cbn zeta. cbn [fst snd].
  split; [reflexivity|]. split; [destruct ru1; cbn; auto|].
  intros h1 Hh. destruct ru1; cbn in *; try discriminate.
  injection Hh as <-. auto.
Qed.

(** C10. The warning hangs on the first check alone: when the lock is
    absent at the first existence check and present at the check of the
    loop condition, the call goes into its loop, sleeping at least once,
    and its trace holds no warning; when the lock then stays until the
    ceiling, the call exits the process with status 1, still without a
    warning. *)
Theorem contention_without_warning fuel args default_cmd t0 :
  probe pacman_db_lock 0%nat = false ->
  probe pacman_db_lock 1%nat = true ->
  (1 <= fuel)%nat ->
  let r := run_pacman probe gettext fuel args default_cmd (boot t0) in
  count is_warning (trace (snd r)) = 0%nat /\
  (1 <= count is_sleep (trace (snd r)))%nat /\
  ((forall k : nat, (1 <= k <= enough)%nat -> probe pacman_db_lock k = true) ->
   (enough <= fuel)%nat ->
   fst r = Exited 1).
Proof.
  intros H0 H1 Hfuel r.
  pose proof (run_pacman_warnings fuel args default_cmd t0) as Hw.
  rewrite H0 in Hw. fold r in Hw.
  split; [exact Hw|]. split.
  - subst r.
    destruct (run_pacman_polls fuel args default_cmd t0)
      as (ru & w' & evs & -> & Hloop & _).
    cbn [snd]. rewrite H0 in Hloop.
    destruct fuel as [|fuel]; [lia|].
    rewrite wait_loop_S in Hloop. cbn [entered checks now] in Hloop.
    rewrite H1 in Hloop.
    replace (t0 + poll_interval - t0) with poll_interval in Hloop by lia.
    change (poll_interval >? ceiling) with false in Hloop. cbv iota in Hloop.
    match type of Hloop with wait_loop _ _ _ _ ?w = _ => set (w1 := w) in * end.
    pose proof (wait_loop_polls fuel t0 w1) as Hp. rewrite Hloop in Hp.
    apply polls_clock in Hp as [_ Hmono]. exact Hmono.
  - intros Hheld Hfuel'. subst r.
    destruct (run_pacman_polls fuel args default_cmd t0)
      as (ru & w' & evs & -> & Hloop & _).
    pose proof (run_pacman_held fuel t0 Hheld Hfuel') as Hx.
    rewrite Hloop in Hx. cbn in Hx. subst ru. reflexivity.
Qed.

(** *** The effects of a call on the file system *)

Lemma stylize_plain text colour code :
  Output.foreground !! colour = Some code ->
  Output._stylize_output text colour None false []
    = Some (ESC +:+ "[" +:+ code +:+ "m" +:+ text +:+ ESC +:+ "[0m").
Proof.
  intros Hc. unfold Output._stylize_output.
  rewrite andb_false_r, Hc. reflexivity.
Qed.

Lemma log_only_logs h c es :
  Output.log h c = Some es -> Forall (only_logs_to (Output.absolute_logfile h)) es.
Proof.
  unfold Output.log.
  destruct (if Output._supports_color h then _ else _) as [text|]; [|discriminate].
  cbn. intros [= <-].
  repeat apply Forall_app_2.
  - destruct (Output.absolute_logfile h) as [q|]; [|constructor].
    repeat constructor. intros p Hp. cbn in Hp.
    apply bool_decide_eq_true in Hp. by subst.
  - destruct (Output.systemd_journal h); repeat constructor; intros p Hp; discriminate.
  - destruct (_ || _); repeat constructor; intros p Hp; discriminate.
Qed.

Lemma log_warn_defined h ms : is_Some (Output.log h (Output.warn ms)).
Proof.
  unfold Output.log. cbn [Output.warn Output.fg Output.bg Output.reset Output.font].
  rewrite (stylize_plain _ "yellow" "33") by reflexivity.
  destruct (Output._supports_color h); cbn; eauto.
Qed.

Lemma log_error_defined h ms : is_Some (Output.log h (Output.error ms)).
Proof.
  unfold Output.log. cbn [Output.error Output.fg Output.bg Output.reset Output.font].
  rewrite (stylize_plain _ "red" "31") by reflexivity.
  destruct (Output._supports_color h); cbn; eauto.
Qed.

Lemma trace_effects_cons h t c tr es rest :
  effects h c = Some es ->
  trace_effects h tr = Some rest ->
  trace_effects h ((t, c) :: tr) = Some (es ++ rest).
Proof. intros He Hr. cbn. rewrite He, Hr. reflexivity. Qed.

Lemma quiet_only_logs logfile e :
  (forall p, writes_to p e = false) -> only_logs_to logfile e.
Proof. intros Hq p Hp. rewrite Hq in Hp. discriminate. Qed.

Lemma paced_effects h msg t r evs :
  paced msg t r evs ->
  exists es, trace_effects h evs = Some es /\
             Forall (only_logs_to (Output.absolute_logfile h)) es.
Proof.
  destruct (log_error_defined h [msg]) as [le Hle].
  pose proof (log_only_logs _ _ _ Hle) as Hlogs.
  induction 1 as [t | t | t | t r evs Hp (es & Hes & Hall)].
  - exists []. split; [reflexivity | constructor].
  - exists [Stat pacman_db_lock]. split; [reflexivity|].
    constructor; [by apply quiet_only_logs | constructor].
  - exists (Stat pacman_db_lock :: Nanosleep poll_interval :: le ++ [ProcessExit 1]).
    split.
    + do 2 (apply (trace_effects_cons _ _ _ _ [_]); [reflexivity|]).
      apply trace_effects_cons; [exact Hle | reflexivity].
    + do 2 (constructor; [by apply quiet_only_logs|]).
      apply Forall_app_2; [exact Hlogs|].
      constructor; [by apply quiet_only_logs | constructor].
  - exists (Stat pacman_db_lock :: Nanosleep poll_interval :: es).
    split.
    + do 2 (apply (trace_effects_cons _ _ _ _ [_]); [reflexivity|]). exact Hes.
    + do 2 (constructor; [by apply quiet_only_logs|]). exact Hall.
Qed.

Lemma opening_effects h msg t0 found :
  exists es, trace_effects h (opening msg t0 found) = Some es /\
             Forall (only_logs_to (Output.absolute_logfile h)) es.
Proof.
  destruct (log_warn_defined h [msg]) as [lw Hlw].
  pose proof (log_only_logs _ _ _ Hlw) as Hlogs.
  unfold opening. destruct found.
  - exists (Stat pacman_db_lock :: lw ++ []). split.
    + apply (trace_effects_cons _ _ _ _ [_]); [reflexivity|].
      apply trace_effects_cons; [exact Hlw | reflexivity].
    + constructor; [by apply quiet_only_logs|].
      apply Forall_app_2; [exact Hlogs | constructor].
  - exists [Stat pacman_db_lock]. split; [reflexivity|].
    constructor; [by apply quiet_only_logs | constructor].
Qed.

Lemma trace_effects_app h a b ea eb :
  trace_effects h a = Some ea ->
  trace_effects h b = Some eb ->
  trace_effects h (a ++ b) = Some (ea ++ eb).
Proof.
  revert ea. induction a as [|[t c] a IH]; intros ea; cbn.
  - intros [= <-] Hb. exact Hb.
  - destruct (effects h c) as [es|]; [|discriminate]. cbn.
    destruct (trace_effects h a) as [rest|]; [|discriminate]. cbn.
    intros [= <-] Hb. rewrite (IH rest eq_refl Hb). cbn.
    by rewrite app_assoc.
Qed.

Lemma fs_replay_frame logfile es (fs : gmap string string) p :
  Forall (only_logs_to logfile) es ->
  logfile <> Some p ->
  fs_replay es fs !! p = fs !! p.
Proof.
  intros Hall Hne. revert fs.
  induction Hall as [|e es He Hall IH]; intros fs; [reflexivity|].
  unfold fs_replay in *. cbn. rewrite IH.
  destruct e; try reflexivity. cbn.
  apply lookup_insert_ne. intros ->. apply Hne, He.
  cbn. by apply bool_decide_eq_true.
Qed.

Lemma fs_replay_no_logfile es (fs : gmap string string) :
  Forall (only_logs_to None) es -> fs_replay es fs = fs.
Proof.
  intros Hall. revert fs.
  induction Hall as [|e es He Hall IH]; intros fs; [reflexivity|].
  unfold fs_replay in *. cbn. rewrite IH.
  destruct e; try reflexivity.
  specialize (He path). cbn in He.
  rewrite bool_decide_eq_true_2 in He by reflexivity.
  by specialize (He eq_refl).
Qed.

(** C8. The runner reads the lock file and never writes it.  On a host
    whose log file is not the lock file, the effects of a call are
    defined, none of them writes [pacman_db_lock], and replaying them
    over any file system leaves what is at [pacman_db_lock] as it was;
    with no log file the whole file system is as it was.  The existence
    check itself changes no file system. *)
Theorem read_only_observation (h : Output.Host) fuel args default_cmd t0
    (fs : gmap string string) :
  Output.absolute_logfile h <> Some pacman_db_lock ->
  exists es,
    trace_effects h
      (trace (snd (run_pacman probe gettext fuel args default_cmd (boot t0))))
      = Some es /\
    Forall (fun e => writes_to pacman_db_lock e = false) es /\
    fs_replay es fs !! pacman_db_lock = fs !! pacman_db_lock /\
    (Output.absolute_logfile h = None -> fs_replay es fs = fs) /\
    (forall fs' : gmap string string, fs_apply (Stat pacman_db_lock) fs' = fs').
Proof.
  intros Hne.
  destruct (run_pacman_polls fuel args default_cmd t0)
    as (ru & w' & evs & -> & _ & _ & Htr & Hpaced).
  cbn [snd]. rewrite Htr.
  destruct (opening_effects h (gettext warn_text) t0 (probe pacman_db_lock 0))
    as (eo & Heo & Hao).
  destruct (paced_effects h _ _ _ _ Hpaced) as (el & Hel & Hal).
  exists (eo ++ el).
  assert (Forall (only_logs_to (Output.absolute_logfile h)) (eo ++ el)) as Hall
    by (by apply Forall_app_2).
  repeat split.
  - by apply trace_effects_app.
  - eapply Forall_impl; [exact Hall|]. intros e He.
    destruct (writes_to pacman_db_lock e) eqn:Hw; [|reflexivity].
    exfalso. apply Hne, He, Hw.
  - by eapply fs_replay_frame.
  - intros Hnone. apply fs_replay_no_logfile. by rewrite <- Hnone.
Qed.

End Gate.

(** ** The wait on a clock that runs on its own *)

Section TimedGate.
Variable probe : string -> nat -> bool.
Variable gettext : string -> string.
Variable delay : nat -> Z.
Hypothesis delay_nonneg : forall k, 0 <= delay k.

(** The timed loop, one iteration unfolded. *)
Lemma timed_wait_loop_S fuel started w :
  Timed.wait_loop probe gettext delay (S fuel) started w =
    let w1 := {| now := now w + 0 + delay (length (trace w));
                 checks := S (checks w);
                 trace := trace w ++ [(now w, Exists pacman_db_lock
                                                (probe pacman_db_lock (checks w)))] |} in
    if probe pacman_db_lock (checks w) then
      let w2 := Timed.spend delay (Sleep poll_interval) poll_interval w1 in
      if now w2 - started >? ceiling
      then (Exited 1,
            Timed.spend delay (Exit 1) 0
              (Timed.spend delay (Log (Output.error [gettext error_text])) 0 w2))
      else Timed.wait_loop probe gettext delay fuel started w2
    else (Returned tt, w1).
Proof.
  cbn [Timed.wait_loop]. unfold bind at 1. unfold Timed.exists_.
  destruct (probe pacman_db_lock (checks w)) eqn:Hl; [|reflexivity].
  unfold bind, Timed.sleep, time, when, Timed.error, Timed.exit, ret; cbn.
  destruct (_ >? _); reflexivity.
Qed.




End TimedGate.

(** ** The claims on sample runs *)

(** With no delay the timed runner is the runner of the claims above. *)
Lemma spend_no_delay c ms w :
  Timed.spend no_delay c ms w
  = {| now := now w + ms; checks := checks w; trace := trace w ++ [(now w, c)] |}.
Proof. unfold Timed.spend, no_delay. f_equal. lia. Qed.

Lemma timed_wait_loop_no_delay probe gettext fuel started w :
  Timed.wait_loop probe gettext no_delay fuel started w
  = wait_loop probe gettext fuel started w.
Proof.
  revert w. induction fuel as [|fuel IH]; intros w; [reflexivity|].
  rewrite timed_wait_loop_S, wait_loop_S. cbn zeta.
  rewrite !spend_no_delay. unfold no_delay, aborted, slept, checked, emit. cbn.
  replace (now w + 0 + 0) with (now w) by lia.
  replace (now w + poll_interval + 0) with (now w + poll_interval) by lia.
  destruct (probe pacman_db_lock (checks w)); [|reflexivity].
  destruct (_ >? _); [|apply IH].
  f_equal. f_equal. lia.
Qed.

Lemma timed_run_pacman_no_delay probe gettext fuel args default_cmd t0 :
  Timed.run_pacman probe gettext no_delay fuel args default_cmd (boot t0)
  = run_pacman probe gettext fuel args default_cmd (boot t0).
Proof.
  rewrite run_pacman_unfold.
  unfold Timed.run_pacman, bind, Timed.exists_, when, Timed.warn, time, ret,
    checked, emit.
  cbn [boot checks now trace].
  destruct (probe pacman_db_lock 0%nat); rewrite ?spend_no_delay;
    cbn [now checks trace]; unfold no_delay at 1;
    replace (t0 + 0 + 0) with t0 by lia; rewrite ?Z.add_0_r;
    rewrite timed_wait_loop_no_delay; reflexivity.
Qed.





Lemma timeout_raises_system_exit_witness :
  exists c w pre t,
    run_pacman locked_late untranslated enough "update" "pacman" (boot 0)
      = (Exited c, w) /\
    c = 1 /\ c <> 0 /\
    count is_error (trace w) = 1%nat /\
    count is_exit (trace w) = 1%nat /\
    trace w = pre ++ [(t, Log (Output.error [error_text])); (t, Exit c)] /\
    forall handler : Z -> M SysCommand,
      catching (run_pacman locked_late untranslated enough "update" "pacman")
        handler (boot 0)
      = handler c w.
Proof.
  apply (timeout_raises_system_exit locked_late untranslated enough "update" "pacman" 0).
  - intros k [Hk _]. apply Nat.leb_le. exact Hk.
  - lia.
Defined.

(** C3, as the specification words it, fails: a caller that catches the
    [SystemExit] of a call that timed out goes on, here with a handle of
    its own. *)
Lemma timeout_can_be_caught :
  ~ timeout_as_specified always_locked untranslated enough "update" "pacman" 0.
Proof.
  intros Hclaim.
  apply (Hclaim (fun _ _ => eq_refl) fallback {| cmd := "true" |}
           (snd (catching (run_pacman always_locked untranslated enough "update" "pacman")
                   fallback (boot 0)))).
  vm_compute. reflexivity.
Qed.

(** C4, as the specification words it, fails: the lock absent at the first
    check and there at the next one makes the call sleep before it
    returns. *)
Lemma immediate_path_fails :
  ~ immediate_path_as_specified locked_once untranslated enough "update" "pacman" 0.
Proof.
  intros Hclaim.
  destruct (Hclaim eq_refl) as (h & w & Hrun & Hsleep & _).
  vm_compute in Hrun. injection Hrun as _ <-.
  vm_compute in Hsleep. discriminate.
Qed.

Lemma immediate_path_witness :
  exists w,
    run_pacman never_locked untranslated 1 "update" "pacman" (boot 0)
      = (Returned {| cmd := "pacman update" |}, w) /\
    now w = 0 /\
    trace w = [ (0, Exists pacman_db_lock false); (0, Exists pacman_db_lock false) ] /\
    count is_sleep (trace w) = 0%nat /\
    count is_warning (trace w) = 0%nat.
Proof.
  apply (immediate_path never_locked untranslated 1 "update" "pacman" 0).
  - reflexivity.
  - reflexivity.
  - lia.
Defined.


Lemma poll_interval_fixed_witness :
  [(0, Sleep 250)] = [(0, Sleep 250)] /\ 250 = 0 + 250 /\ true = true.
Proof.
  apply (poll_interval_fixed locked_thrice untranslated enough "update" "pacman" 0
           [ (0, Exists pacman_db_lock true); (0, Log (Output.warn [warn_text])) ]
           0 pacman_db_lock true
           [ (0, Sleep 250) ]
           250 pacman_db_lock true
           [ (250, Sleep 250); (500, Exists pacman_db_lock false) ]).
  - vm_compute. reflexivity.
  - discriminate.
  - reflexivity.
Defined.

Lemma read_only_observation_witness :
  exists es,
    trace_effects installer_host
      (trace (snd (run_pacman locked_thrice untranslated enough "update" "pacman" (boot 0))))
      = Some es /\
    Forall (fun e => writes_to pacman_db_lock e = false) es /\
    fs_replay es {[ pacman_db_lock := EmptyString ]} !! pacman_db_lock
      = ({[ pacman_db_lock := EmptyString ]} : gmap string string) !! pacman_db_lock /\
    (Output.absolute_logfile installer_host = None ->
     fs_replay es {[ pacman_db_lock := EmptyString ]} = {[ pacman_db_lock := EmptyString ]}) /\
    (forall fs' : gmap string string, fs_apply (Stat pacman_db_lock) fs' = fs').
Proof.
  apply (read_only_observation locked_thrice untranslated installer_host enough
           "update" "pacman" 0 {[ pacman_db_lock := EmptyString ]}).
  discriminate.
Defined.

Lemma contention_without_warning_witness :
  let r := run_pacman locked_late untranslated enough "update" "pacman" (boot 0) in
  count is_warning (trace (snd r)) = 0%nat /\
  (1 <= count is_sleep (trace (snd r)))%nat /\
  fst r = Exited 1.
Proof.
  destruct (contention_without_warning locked_late untranslated enough
              "update" "pacman" 0) as (Hwarn & Hsleep & Hexit).
  - reflexivity.
  - reflexivity.
  - rewrite enough_eq. lia.
  - split; [exact Hwarn|]. split; [exact Hsleep|].
    apply Hexit.
    + intros k [Hk _]. apply Nat.leb_le. exact Hk.
    + lia.
Defined.

(** A lock that is there at three checks: one warning, two sleeps, and the
    handle half a second after the call. *)
Example contended_then_clear :
  run_pacman locked_thrice untranslated enough "update" "pacman" (boot 0)
  = (Returned {| cmd := "pacman update" |},
     {| now := 500; checks := 4;
        trace := [ (0, Exists pacman_db_lock true);
                   (0, Log (Output.warn [warn_text]));
                   (0, Exists pacman_db_lock true); (0, Sleep 250);
                   (250, Exists pacman_db_lock true); (250, Sleep 250);
                   (500, Exists pacman_db_lock false) ] |}).
Proof. vm_compute. reflexivity. Qed.

(** The warning on the sample host: a line in the log file, and the same
    line in yellow on the terminal. *)
Example warn_on_installer_host :
  Output.log installer_host (Output.warn ["busy"])
  = Some [ AppendFile "/var/log/archinstall/install.log" ("busy" +:+ LF);
           StdoutWrite (ESC +:+ "[33mbusy" +:+ ESC +:+ "[0m" +:+ LF) ].
Proof. vm_compute. reflexivity. Qed.

(** A lock that never goes: the exit comes 600250 ms after the call. *)
Example never_cleared :
  let r := run_pacman always_locked untranslated enough "update" "pacman" (boot 0) in
  fst r = Exited 1 /\ now (snd r) = 600250 /\
  count is_warning (trace (snd r)) = 1%nat /\
  count is_error (trace (snd r)) = 1%nat.
Proof. vm_compute. auto. Qed.

(** * Beyond the runner *)

(** ** output.py: styling and [log] *)

(** X1. [_stylize_output] raises its [KeyError] when, and only when, it
    is not asked for the bare reset sequence (an empty text with
    [reset]) and the foreground is not a colour of the table or the
    background is a non-empty name that is not one. *)
Theorem stylize_raises_iff text fg bg reset font :
  Output._stylize_output text fg bg reset font = None <->
  ~ (text = EmptyString /\ reset = true) /\
  (Output.colors !! fg = None \/
   exists c, bg = Some c /\ c <> EmptyString /\ Output.colors !! c = None).
Proof.
  unfold Output._stylize_output, Output.foreground, Output.background.
  generalize Output.colors. intros table.
  rewrite lookup_fmap.
  destruct (String.eqb_spec text "") as [->|Htext], reset; cbn [andb];
    try (split; [discriminate | intros [Hn _]; exfalso; by apply Hn]);
    (destruct (table !! fg) as [f|] eqn:Hfg; cbn;
     [ destruct bg as [c|]; cbn;
       [ destruct (String.eqb_spec c "") as [->|Hc]; cbn;
         [ | rewrite lookup_fmap; destruct (table !! c) eqn:Hbg; cbn ] | ]
     | ]);
    (split;
     [ first [ discriminate
             | intros _; split; [intros [? ?]; congruence | eauto 6] ]
     | first [ reflexivity
             | intros [_ [?|(c' & ? & ? & ?)]]; simplify_eq; congruence ] ]).
Qed.

(** *** Strings *)

Lemma string_app_cons a s t : String a s +:+ t = String a (s +:+ t).
Proof. reflexivity. Qed.

Lemma string_app_nil_r s : s +:+ EmptyString = s.
Proof. induction s as [|a s IH]; [reflexivity|]. by rewrite string_app_cons, IH. Qed.

Lemma string_app_assoc s t u : (s +:+ t) +:+ u = s +:+ t +:+ u.
Proof.
  induction s as [|a s IH]; [reflexivity|]. by rewrite !string_app_cons, IH.
Qed.

Lemma string_app_length s t :
  String.length (s +:+ t) = (String.length s + String.length t)%nat.
Proof.
  induction s as [|a s IH]; [reflexivity|].
  rewrite string_app_cons. cbn. by rewrite IH.
Qed.

(** *** [log] *)

(** What [log] does once the text to show is settled. *)
Lemma log_unfold h c :
  Output.log h c =
    match (if Output._supports_color h
           then Output._stylize_output (join " " (Output.msgs c)) (Output.fg c)
                  (Output.bg c) (Output.reset c) (Output.font c)
           else Some (join " " (Output.msgs c))) with
    | None => None
    | Some text =>
        Some ((match Output.absolute_logfile h with
               | Some p => [AppendFile p (join " " (Output.msgs c) +:+ LF)]
               | None => []
               end)
              ++ (if Output.systemd_journal h
                  then [JournalLog (Output.level c) text] else [])
              ++ (if negb (Output.level c =? Output.DEBUG) || Output.verbose h
                  then [StdoutWrite (text +:+ LF)] else []))
    end.
Proof.
  unfold Output.log. destruct (if Output._supports_color h then _ else _); reflexivity.
Qed.

(** A styled text ends with the reset sequence. *)
Lemma stylize_ends_reset text fg bg reset font s :
  Output._stylize_output text fg bg reset font = Some s ->
  exists body, s = body +:+ RESET.
Proof.
  unfold Output._stylize_output.
  destruct (_ && _).
  - intros [= <-]. exists EmptyString. reflexivity.
  - destruct (Output.foreground !! fg) as [f|]; [|discriminate]. cbn.
    destruct (match bg with Some _ => _ | None => _ end) as [b|]; [|discriminate].
    cbn. intros [= <-].
    match goal with
    | |- exists _, ?a +:+ ?b +:+ ?c +:+ ?d +:+ ?e +:+ _ = _ =>
        exists (a +:+ b +:+ c +:+ d +:+ e)
    end.
    unfold RESET. by rewrite !string_app_assoc.
Qed.

(** X2. The default colours of [info], [debug], [warn] and [error] are in
    the tables of [_stylize_output]: styling the messages of a call that
    leaves the colours of its wrapper alone raises no [KeyError], and
    gives the messages between the colour of the wrapper and the reset
    sequence. *)
Theorem wrapper_colours_are_known ms :
  Forall2 (fun (c : Output.LogCall) code =>
             Output._stylize_output (join " " (Output.msgs c)) (Output.fg c)
               (Output.bg c) (Output.reset c) (Output.font c)
             = Some (ESC +:+ "[" +:+ code +:+ "m" +:+ join " " ms +:+ RESET))
    [Output.info ms; Output.debug ms; Output.warn ms; Output.error ms]
    ["37"; "37"; "33"; "31"].
Proof.
  repeat constructor;
    cbn [Output.info Output.debug Output.warn Output.error Output.msgs
         Output.fg Output.bg Output.reset Output.font].
  - by rewrite (stylize_plain _ "white" "37").
  - by rewrite (stylize_plain _ "white" "37").
  - by rewrite (stylize_plain _ "yellow" "33").
  - by rewrite (stylize_plain _ "red" "31").
Qed.

(** X4. Whatever the terminal, the log file gets the plain text: a call
    of [log] that goes through makes one write to the log file when one
    is set, of the messages joined by spaces and a line feed, without the
    escape sequences of the styling, and writes no file when none is
    set. *)
Theorem log_file_gets_plain_text h c es :
  Output.log h c = Some es ->
  List.filter is_append es =
    match Output.absolute_logfile h with
    | Some p => [AppendFile p (join " " (Output.msgs c) +:+ LF)]
    | None => []
    end.
Proof.
  rewrite log_unfold.
  destruct (if Output._supports_color h then _ else _) as [text|]; [|discriminate].
  intros [= <-]. rewrite !List.filter_app.
  destruct (Output.absolute_logfile h), (Output.systemd_journal h),
    (negb _ || _); reflexivity.
Qed.

(** X5. A call of [log] that goes through writes to the terminal once
    when its level is not [DEBUG] or the run is verbose, and not at all
    otherwise; the journal and the log file get the message either
    way. *)
Theorem debug_is_quiet h c es :
  Output.log h c = Some es ->
  length (List.filter is_stdout es) =
    (if negb (Output.level c =? Output.DEBUG) || Output.verbose h
     then 1%nat else 0%nat)
  /\ (Output.systemd_journal h = true ->
      exists text, JournalLog (Output.level c) text ∈ es)
  /\ (forall p, Output.absolute_logfile h = Some p ->
      AppendFile p (join " " (Output.msgs c) +:+ LF) ∈ es).
Proof.
  rewrite log_unfold.
  destruct (if Output._supports_color h then _ else _) as [text|]; [|discriminate].
  intros [= <-]. repeat split.
  - rewrite !List.filter_app, !length_app.
    destruct (Output.absolute_logfile h), (Output.systemd_journal h),
      (negb _ || _); reflexivity.
  - intros ->. exists text. rewrite !elem_of_app. right. left. apply list_elem_of_here.
  - intros p ->. rewrite !elem_of_app. left. apply list_elem_of_here.
Qed.

(** X6. What [log] writes to a colour terminal ends with the reset
    sequence and the line feed, so that no colour runs into the next
    line; to any other terminal it writes the messages as they are. *)
Theorem terminal_line h c es t :
  Output.log h c = Some es ->
  StdoutWrite t ∈ es ->
  if Output._supports_color h
  then exists body, t = body +:+ RESET +:+ LF
  else t = join " " (Output.msgs c) +:+ LF.
Proof.
  rewrite log_unfold.
  destruct (Output._supports_color h).
  - destruct (Output._stylize_output _ _ _ _ _) as [text|] eqn:Hs; [|discriminate].
    intros [= <-] Hin. apply stylize_ends_reset in Hs as [body ->].
    exists body. rewrite <- string_app_assoc.
    rewrite !elem_of_app in Hin. destruct Hin as [Hin|[Hin|Hin]].
    + destruct (Output.absolute_logfile h); [|by apply not_elem_of_nil in Hin].
      apply list_elem_of_singleton in Hin. discriminate.
    + destruct (Output.systemd_journal h); [|by apply not_elem_of_nil in Hin].
      apply list_elem_of_singleton in Hin. discriminate.
    + destruct (negb _ || _); [|by apply not_elem_of_nil in Hin].
      apply list_elem_of_singleton in Hin. by injection Hin.
  - intros [= <-] Hin.
    rewrite !elem_of_app in Hin. destruct Hin as [Hin|[Hin|Hin]].
    + destruct (Output.absolute_logfile h); [|by apply not_elem_of_nil in Hin].
      apply list_elem_of_singleton in Hin. discriminate.
    + destruct (Output.systemd_journal h); [|by apply not_elem_of_nil in Hin].
      apply list_elem_of_singleton in Hin. discriminate.
    + destruct (negb _ || _); [|by apply not_elem_of_nil in Hin].
      apply list_elem_of_singleton in Hin. by injection Hin.
Qed.

(** ** output.py: [FormattedOutput.as_columns] *)

Lemma repeat_length c n : String.length (Py.repeat c n) = n.
Proof. induction n as [|n IH]; cbn; [reflexivity | by rewrite IH]. Qed.

Lemma ljust_length width s :
  String.length (Py.ljust width s) = max width (String.length s).
Proof. unfold Py.ljust. rewrite string_app_length, repeat_length. lia. Qed.

Lemma rjust_length width s :
  String.length (Py.rjust width s) = max width (String.length s).
Proof. unfold Py.rjust. rewrite string_app_length, repeat_length. lia. Qed.

Lemma cell_length s :
  String.length (FormattedOutput.cell s) = (max 30 (String.length s) + 1)%nat.
Proof.
  unfold FormattedOutput.cell. rewrite string_app_length, ljust_length. cbn. lia.
Qed.

Lemma concat_cells_length row :
  String.length (String.concat "" (map FormattedOutput.cell row))
  = sum_list_with (fun e => (max 30 (String.length e) + 1)%nat) row.
Proof.
  induction row as [|e row IH]; [reflexivity|].
  cbn [map sum_list_with]. rewrite <- IH, <- cell_length.
  destruct row as [|e' row]; cbn [map String.concat].
  - cbn. lia.
  - rewrite !string_app_length. reflexivity.
Qed.

Lemma rows_length rows init :
  String.length
    (foldl (fun output row =>
              output +:+ String.concat "" (map FormattedOutput.cell row) +:+ LF)
           init rows)
  = (String.length init
     + sum_list_with (fun e => (max 30 (String.length e) + 1)%nat) (concat rows)
     + length rows)%nat.
Proof.
  revert init. induction rows as [|row rows IH]; intros init; cbn [foldl].
  - cbn. lia.
  - rewrite IH, !string_app_length, concat_cells_length.
    cbn [concat length]. rewrite sum_list_with_app. cbn. lia.
Qed.

(** The rows for a positive number of columns. *)
Lemma chunks_pos entries (c : nat) :
  (0 < c)%nat ->
  FormattedOutput.chunks entries (Z.of_nat c)
  = Some (map (fun k => take c (drop (k * c) entries))
              (seq 0 (Z.to_nat ((Z.of_nat (length entries) + Z.of_nat c - 1)
                                / Z.of_nat c)))).
Proof.
  intros Hc. unfold FormattedOutput.chunks, Py.range.
  destruct (Z.eqb_spec (Z.of_nat c) 0) as [|_]; [lia|].
  destruct (Z.ltb_spec 0 (Z.of_nat c)) as [_|]; [|lia].
  cbn. rewrite Z.sub_0_r. f_equal. rewrite map_map. apply map_ext. intros k.
  unfold Py.slice. f_equal; [lia | f_equal; lia].
Qed.

Lemma concat_chunks {A} (l : list A) (c m : nat) :
  concat (map (fun k => take c (drop (k * c) l)) (seq 0 m)) = take (m * c) l.
Proof.
  induction m as [|m IH]; [reflexivity|].
  rewrite seq_S, map_app, concat_app, IH. cbn [map concat].
  rewrite app_nil_r, take_take_drop. f_equal. lia.
Qed.

Lemma ceil_bounds (n c : nat) :
  (0 < c)%nat ->
  let m := Z.to_nat ((Z.of_nat n + Z.of_nat c - 1) / Z.of_nat c) in
  (n <= m * c)%nat /\ (forall k, (k < m)%nat -> (k * c < n)%nat).
Proof.
  intros Hc m.
  assert (0 < Z.of_nat c) as Hc' by lia.
  pose proof (Z.mul_div_le (Z.of_nat n + Z.of_nat c - 1) _ Hc') as Hle.
  pose proof (Z.mul_succ_div_gt (Z.of_nat n + Z.of_nat c - 1) _ Hc') as Hgt.
  assert (0 <= (Z.of_nat n + Z.of_nat c - 1) / Z.of_nat c) as Hnn
    by (apply Z.div_pos; lia).
  subst m. split; [nia|]. intros k Hk. nia.
Qed.

(** X7. For a positive number of columns the rows of [as_columns] cut the
    entries up without loss: put end to end they are the entries, in
    their order; no row is empty or longer than [cols], every row before
    the last holds [cols] entries, and there are ceil(len / cols) of
    them. *)
Theorem chunks_partition entries cols :
  0 < cols ->
  exists rows,
    FormattedOutput.chunks entries cols = Some rows /\
    concat rows = entries /\
    Forall (fun r => (0 < length r <= Z.to_nat cols)%nat) rows /\
    (forall i r, rows !! i = Some r -> (S i < length rows)%nat ->
                 length r = Z.to_nat cols) /\
    Z.of_nat (length rows) = (Z.of_nat (length entries) + cols - 1) / cols.
Proof.
  intros Hcols.
  destruct (Z_of_nat_complete cols) as [c ->]; [lia|].
  assert (0 < c)%nat as Hc by lia.
  rewrite Nat2Z.id.
  set (m := Z.to_nat ((Z.of_nat (length entries) + Z.of_nat c - 1) / Z.of_nat c)).
  destruct (ceil_bounds (length entries) c Hc) as [Hcover Hstart]. fold m in Hcover, Hstart.
  eexists. split; [by apply chunks_pos|]. fold m.
  split; [|split; [|split]].
  - rewrite concat_chunks. apply take_ge. exact Hcover.
  - apply Forall_forall. intros r Hr.
    apply list_elem_of_In, in_map_iff in Hr as (k & <- & Hk).
    apply in_seq in Hk. rewrite length_take, length_drop.
    specialize (Hstart k). lia.
  - intros i r Hi Hlast. rewrite length_map, length_seq in Hlast.
    rewrite list_lookup_fmap in Hi.
    destruct (seq 0 m !! i) as [k|] eqn:Hk; [|discriminate].
    apply lookup_seq in Hk as [-> _]. cbn in Hi. injection Hi as <-.
    rewrite length_take, length_drop.
    specialize (Hstart (S i) Hlast). cbn in *. lia.
  - rewrite length_map, length_seq. subst m. rewrite Z2Nat.id; [reflexivity|].
    apply Z.div_pos; lia.
Qed.

(** X8. For a positive number of columns [as_columns] returns a text whose
    length is known from the entries alone: each entry takes its own
    length or 30, whichever is more, and one space; each of the
    ceil(len / cols) rows one line feed.  No entry is cut. *)
Theorem as_columns_length entries cols :
  0 < cols ->
  exists output,
    FormattedOutput.as_columns entries cols = Some output /\
    String.length output =
      (sum_list_with (fun e => (max 30 (String.length e) + 1)%nat) entries
       + Z.to_nat ((Z.of_nat (length entries) + cols - 1) / cols))%nat.
Proof.
  intros Hcols.
  destruct (Z_of_nat_complete cols) as [c ->]; [lia|].
  assert (0 < c)%nat as Hc by lia.
  destruct (ceil_bounds (length entries) c Hc) as [Hcover _].
  unfold FormattedOutput.as_columns. rewrite (chunks_pos entries c Hc). cbn.
  eexists. split; [reflexivity|].
  rewrite rows_length, concat_chunks, (take_ge _ _ Hcover), length_map, length_seq.
  cbn. lia.
Qed.

(** X9. With no column, [as_columns] raises the [ValueError] of [range];
    with a negative number of columns it returns the empty text,
    whatever the entries. *)
Theorem as_columns_without_columns entries cols :
  cols <= 0 ->
  FormattedOutput.as_columns entries cols
  = if cols =? 0 then None else Some EmptyString.
Proof.
  intros Hcols. unfold FormattedOutput.as_columns, FormattedOutput.chunks,
    Py.range.
  destruct (Z.eqb_spec cols 0) as [->|Hne]; [reflexivity|].
  destruct (Z.ltb_spec 0 cols) as [|_]; [lia|].
  replace (Z.to_nat _) with 0%nat; [reflexivity|].
  symmetry. apply Z2Nat.nonpos.
  assert ((0 - Z.of_nat (length entries) - cols - 1) / - cols < 1); [|lia].
  apply Z.div_lt_upper_bound; lia.
Qed.

(** ** interactions/general_conf.py *)

Section Conversations.
Variable gettext : string -> string.
Variable strip : string -> string.
Variable split : string -> list string.
Variable int : string -> option Z.
Variable repr : list string -> string.
Variable validate_package_list : list string -> list string * list string.

Lemma ask_hostname_named preset answers evs hostname :
  GeneralConf.ask_hostname gettext strip preset answers
    = (evs, GeneralConf.Done hostname) ->
  hostname <> EmptyString.
Proof.
  revert evs. induction answers as [|[a|exn] answers IH]; intros evs; cbn;
    try discriminate.
  destruct (String.eqb_spec (strip a) "") as [Hblank|Hname].
  - destruct (GeneralConf.ask_hostname gettext strip preset answers) as [evs' r] eqn:Hrec.
    intros [= _ ->]. by eapply IH.
  - by intros [= _ <-].
Qed.

(** X10. [ask_hostname] returns the first answer that is not blank,
    stripped, having asked once for each blank answer before it and once
    for this one; it keeps asking while the answers are blank, and what
    it returns is never the empty hostname. *)
Theorem hostname_never_empty preset blanks answer rest :
  Forall (fun b => strip b = EmptyString) blanks ->
  strip answer <> EmptyString ->
  GeneralConf.ask_hostname gettext strip preset
    (map GeneralConf.Typed blanks ++ GeneralConf.Typed answer :: rest)
  = (replicate (S (length blanks))
       (GeneralConf.TextInput (gettext GeneralConf.hostname_prompt) preset),
     GeneralConf.Done (strip answer)) /\
  (GeneralConf.ask_hostname gettext strip preset (map GeneralConf.Typed blanks)).2
  = GeneralConf.Asking /\
  forall answers evs hostname,
    GeneralConf.ask_hostname gettext strip preset answers
      = (evs, GeneralConf.Done hostname) ->
    hostname <> EmptyString.
Proof.
  intros Hblanks Hname. split; [|split].
  - induction Hblanks as [|b blanks Hb _ IH]; cbn.
    + by destruct (String.eqb_spec (strip answer) "").
    + rewrite Hb. cbn. by rewrite IH.
  - induction Hblanks as [|b blanks Hb _ IH]; cbn; [reflexivity|].
    rewrite Hb. cbn.
    by destruct (GeneralConf.ask_hostname gettext strip preset
                   (map GeneralConf.Typed blanks)).
  - apply ask_hostname_named.
Qed.

Variable offline no_pkg_lookups : bool.

Lemma verify_packages_done answers packages evs pk :
  GeneralConf.verify_packages gettext strip split repr validate_package_list
    answers packages = (evs, GeneralConf.Done pk) ->
  pk = [] \/ (validate_package_list pk).2 = [].
Proof.
  revert packages evs.
  induction answers as [|a answers IH]; intros packages evs; cbn;
    destruct packages as [|p packages]; try (intros [= _ <-]; by left);
    destruct (validate_package_list (p :: packages)) as [valid invalid] eqn:Hv;
    destruct invalid as [|i invalid]; try discriminate;
    try (intros [= _ <-]; right; by rewrite Hv).
  destruct (GeneralConf.verify_packages _ _ _ _ _ answers _) as [evs' r] eqn:Hrec.
  intros [= _ ->]. eapply IH, Hrec.
Qed.

Lemma verify_packages_prompts answers packages :
  let evs := (GeneralConf.verify_packages gettext strip split repr
                validate_package_list answers packages).1 in
  length (List.filter is_text_input evs) = length (List.filter is_warn evs).
Proof.
  revert packages.
  induction answers as [|a answers IH]; intros packages; cbn;
    destruct packages as [|p packages]; try reflexivity;
    destruct (validate_package_list (p :: packages)) as [valid invalid] eqn:Hv;
    destruct invalid as [|i invalid]; try reflexivity.
  specialize (IH (GeneralConf.read_packages gettext strip split valid a).2).
  cbn in IH.
  destruct (GeneralConf.verify_packages _ _ _ _ _ answers _) as [evs' r] eqn:Hrec.
  cbn in IH |- *. by rewrite IH.
Qed.

Lemma verify_packages_accepts answers packages :
  packages = [] \/ (validate_package_list packages).2 = [] ->
  (GeneralConf.verify_packages gettext strip split repr validate_package_list
     answers packages).2 = GeneralConf.Done packages.
Proof.
  intros Hok. destruct answers as [|a answers]; cbn;
    destruct packages as [|p packages]; try reflexivity;
    destruct Hok as [|Hok]; try discriminate;
    destruct (validate_package_list (p :: packages)) as [valid invalid];
    cbn in Hok; by subst invalid.
Qed.

Lemma verify_packages_returns rejected answer rest packages :
  packages <> [] ->
  (validate_package_list packages).2 <> [] ->
  Forall (fun a => typed_packages strip split a <> [] /\
                   (validate_package_list (typed_packages strip split a)).2 <> [])
         rejected ->
  typed_packages strip split answer = [] \/
  (validate_package_list (typed_packages strip split answer)).2 = [] ->
  (GeneralConf.verify_packages gettext strip split repr validate_package_list
     (rejected ++ answer :: rest) packages).2
  = GeneralConf.Done (typed_packages strip split answer).
Proof.
  intros Hne Hbad Hrejected Hok. revert packages Hne Hbad.
  induction Hrejected as [|a rejected [Ha1 Ha2] _ IH]; intros packages Hne Hbad;
    destruct packages as [|p packages]; try done; cbn;
    destruct (validate_package_list (p :: packages)) as [valid invalid];
    cbn in Hbad; destruct invalid as [|i invalid]; try done.
  - pose proof (verify_packages_accepts rest _ Hok) as Hrest.
    unfold typed_packages in Hrest. cbn in Hrest.
    destruct (GeneralConf.verify_packages _ _ _ _ _ rest _) as [evs r].
    cbn in Hrest |- *. exact Hrest.
  - specialize (IH _ Ha1 Ha2). unfold typed_packages in IH at 1. cbn in IH.
    destruct (GeneralConf.verify_packages _ _ _ _ _ (rejected ++ answer :: rest) _)
      as [evs r].
    cbn in IH |- *. exact IH.
Qed.

(** X11. With the package lookups on, and as long as the prompt and the
    validation return,
    [ask_additional_packages_to_install] returns the first list typed
    that is empty or in which [validate_package_list] finds no invalid
    package, having asked again after each list with one; and whatever
    the answers, what it returns has passed this validation. *)
Theorem returned_packages_are_valid preset rejected answer rest :
  offline = false ->
  no_pkg_lookups = false ->
  Forall (fun a => typed_packages strip split a <> [] /\
                   (validate_package_list (typed_packages strip split a)).2 <> [])
         rejected ->
  typed_packages strip split answer = [] \/
  (validate_package_list (typed_packages strip split answer)).2 = [] ->
  (GeneralConf.ask_additional_packages_to_install gettext strip split repr
     validate_package_list offline no_pkg_lookups preset
     (rejected ++ answer :: rest)).2
  = GeneralConf.Done (typed_packages strip split answer) /\
  forall answers evs packages,
    GeneralConf.ask_additional_packages_to_install gettext strip split repr
      validate_package_list offline no_pkg_lookups preset answers
      = (evs, GeneralConf.Done packages) ->
    packages = [] \/ (validate_package_list packages).2 = [].
Proof.
  intros -> -> Hrejected Hok. split.
  - unfold GeneralConf.ask_additional_packages_to_install.
    destruct Hrejected as [|a rejected [Ha1 Ha2] Hrejected]; cbn.
    + pose proof (verify_packages_accepts rest _ Hok) as Hrest.
      unfold typed_packages in Hrest. cbn in Hrest.
      destruct (GeneralConf.verify_packages _ _ _ _ _ rest _) as [evs r].
      cbn in Hrest |- *. exact Hrest.
    + pose proof (verify_packages_returns rejected answer rest _ Ha1 Ha2 Hrejected Hok)
        as Hrun.
      unfold typed_packages in Hrun at 1. cbn in Hrun.
      destruct (GeneralConf.verify_packages _ _ _ _ _ (rejected ++ answer :: rest) _)
        as [evs r].
      cbn in Hrun |- *. exact Hrun.
  - intros answers evs packages.
    unfold GeneralConf.ask_additional_packages_to_install.
    destruct answers as [|a answers]; [discriminate|]. cbn.
    destruct (GeneralConf.verify_packages _ _ _ _ _ answers _) as [evs' r] eqn:Hrec.
    intros [= _ ->]. eapply verify_packages_done, Hrec.
Qed.

(** X12. [ask_additional_packages_to_install] warns once for each list it
    rejects and asks again after each warning: in every mode and
    whatever the answers, the prompts it has shown are one more than the
    warnings it has emitted, and with the lookups off there is no
    warning. *)
Theorem one_prompt_per_warning preset answers :
  let evs := (GeneralConf.ask_additional_packages_to_install gettext strip split
                repr validate_package_list offline no_pkg_lookups preset answers).1 in
  length (List.filter is_text_input evs) = S (length (List.filter is_warn evs)) /\
  (negb offline && negb no_pkg_lookups = false -> List.filter is_warn evs = []).
Proof.
  unfold GeneralConf.ask_additional_packages_to_install.
  destruct answers as [|a answers]; [by split|].
  cbn. destruct (negb offline && negb no_pkg_lookups) eqn:Hmode.
  - pose proof (verify_packages_prompts answers
                  (if String.eqb (strip a) "" then [] else split (strip a))) as Hp.
    cbn in Hp.
    destruct (GeneralConf.verify_packages _ _ _ _ _ answers _) as [evs' r].
    cbn in Hp |- *. split; [by rewrite Hp | discriminate].
  - by split.
Qed.

(** *** Lines *)

Lemma split_on_cons sep s : exists x rest, Py.split_on sep s = x :: rest.
Proof.
  destruct s as [|a s]; cbn; [eauto|].
  destruct (Ascii.eqb a sep); [eauto|].
  destruct (Py.split_on sep s); eauto.
Qed.

Lemma split_on_no_sep sep s :
  Forall (fun l => has_char sep l = false) (Py.split_on sep s).
Proof.
  induction s as [|a s IH]; cbn.
  - by repeat constructor.
  - destruct (Ascii.eqb a sep) eqn:Ha; [by constructor|].
    destruct (Py.split_on sep s) as [|x rest]; [by repeat constructor; cbn; rewrite Ha|].
    inversion IH as [|? ? Hx Hrest]; subst. constructor; [|exact Hrest].
    cbn. by rewrite Ha, Hx.
Qed.

Lemma split_on_line sep l rest :
  has_char sep l = false ->
  Py.split_on sep (l +:+ String sep rest) = l :: Py.split_on sep rest.
Proof.
  induction l as [|a l IH]; intros Hl.
  - change (EmptyString +:+ String sep rest) with (String sep rest).
    cbn [Py.split_on]. by rewrite Ascii.eqb_refl.
  - cbn in Hl. apply orb_false_elim in Hl as [Ha Hl].
    rewrite string_app_cons. cbn. rewrite Ha, (IH Hl). reflexivity.
Qed.

(** Writing the lines back with their line feeds gives the text and one
    line feed more. *)
Lemma lines_round_trip s :
  foldr (fun l acc => (l +:+ LF) +:+ acc) EmptyString (Py.split_on NL s)
  = s +:+ LF.
Proof.
  induction s as [|a s IH]; [reflexivity|].
  cbn [Py.split_on].
  destruct (Ascii.eqb_spec a NL) as [->|Ha].
  - cbn [foldr]. rewrite IH. reflexivity.
  - destruct (split_on_cons NL s) as (x & rest & Hs). rewrite Hs in IH |- *.
    cbn [foldr] in IH |- *. rewrite !string_app_cons. by rewrite IH.
Qed.

Lemma concat_empty ls :
  String.concat "" ls = foldr (fun l acc => l +:+ acc) EmptyString ls.
Proof.
  induction ls as [|l ls IH]; [reflexivity|].
  cbn [String.concat foldr]. rewrite <- IH.
  destruct ls; [by rewrite string_app_nil_r | reflexivity].
Qed.

Lemma prefix_nil_r n : String.prefix n EmptyString = true -> n = EmptyString.
Proof. destruct n; [reflexivity | discriminate]. Qed.

Lemma prefix_first_line sep s : forall n x rest,
  Py.split_on sep s = x :: rest ->
  String.prefix n x = true -> String.prefix n s = true.
Proof.
  induction s as [|a s IH]; intros n x rest; cbn.
  - by intros [= <- _].
  - destruct (Ascii.eqb a sep).
    + intros [= <- _] Hn. by rewrite (prefix_nil_r _ Hn).
    + destruct (split_on_cons sep s) as (x' & rest' & Hs). rewrite Hs.
      intros [= <- _]. destruct n as [|b n]; [reflexivity|]. cbn.
      destruct (Ascii.ascii_dec b a); [|discriminate]. by eapply IH.
Qed.

Lemma contains_nil needle :
  Py.contains needle EmptyString = true -> needle = EmptyString.
Proof. cbn. rewrite orb_false_r. apply prefix_nil_r. Qed.

(** A text that does not mention a word has no line that does. *)
Lemma lines_do_not_contain needle s :
  Py.contains needle s = false ->
  Forall (fun l => Py.contains needle l = false)
         (Py.split_on NL s).
Proof.
  induction s as [|a s IH]; intros Hs.
  - by repeat constructor.
  - cbn in Hs. apply orb_false_elim in Hs as [Hp Hs].
    specialize (IH Hs). cbn [Py.split_on].
    assert (needle <> EmptyString) as Hne by (intros ->; discriminate).
    destruct (Ascii.eqb a NL).
    + constructor; [|exact IH].
      destruct (Py.contains needle "") eqn:Hc; [|reflexivity].
      by apply contains_nil in Hc.
    + destruct (split_on_cons NL s) as (x & rest & Hx). rewrite Hx in IH |- *.
      inversion IH as [|? ? Hcx Hrest]; subst. constructor; [|exact Hrest].
      cbn. rewrite Hcx, orb_false_r.
      destruct needle as [|b needle]; [done|]. cbn in Hp |- *.
      destruct (Ascii.ascii_dec b a); [|reflexivity].
      destruct (String.prefix needle x) eqn:Hpx; [|reflexivity].
      by rewrite (prefix_first_line _ _ _ _ _ Hx Hpx) in Hp.
Qed.

Lemma write_line_eq n line :
  GeneralConf.write_line n line = set_downloads_line n line +:+ LF.
Proof.
  unfold GeneralConf.write_line, set_downloads_line, downloads_setting.
  destruct (Py.contains _ line); [|reflexivity].
  destruct (n =? 0); cbn [negb]; [reflexivity|].
  by rewrite string_app_assoc.
Qed.

Lemma write_conf_eq n content :
  GeneralConf.write_conf n content
  = foldr (fun l acc => (set_downloads_line n l +:+ LF) +:+ acc) EmptyString
          (Py.split_on NL content).
Proof.
  unfold GeneralConf.write_conf. rewrite concat_empty. fold NL.
  induction (Py.split_on NL content) as [|l ls IH]; [reflexivity|].
  cbn [map foldr]. by rewrite IH, write_line_eq.
Qed.

Lemma downloads_setting_one_line n :
  0 <= n <= 5 ->
  has_char NL (downloads_setting n) = false /\
  Py.contains "ParallelDownloads" (downloads_setting n) = true.
Proof.
  intros Hn.
  assert (n = 0 \/ n = 1 \/ n = 2 \/ n = 3 \/ n = 4 \/ n = 5) as Hcases by lia.
  destruct Hcases as [->|[->|[->|[->|[->| ->]]]]]; by vm_compute.
Qed.

(** The lines of the file as it is written. *)
Lemma write_conf_lines n content :
  0 <= n <= 5 ->
  Py.split_on NL (GeneralConf.write_conf n content)
  = map (set_downloads_line n) (Py.split_on NL content) ++ [EmptyString].
Proof.
  intros Hn. rewrite write_conf_eq.
  pose proof (split_on_no_sep NL content) as Hlines.
  induction Hlines as [|l ls Hl _ IH]; [reflexivity|].
  cbn [foldr map app]. rewrite <- IH.
  rewrite string_app_assoc. apply split_on_line.
  unfold set_downloads_line. destruct (Py.contains _ l); [|exact Hl].
  by apply downloads_setting_one_line.
Qed.

Lemma clamp_downloads_range v : 0 <= GeneralConf.clamp_downloads v <= 5.
Proof.
  unfold GeneralConf.clamp_downloads, GeneralConf.max_downloads.
  destruct (Z.leb_spec v 0); [lia|]. destruct (Z.gtb_spec v 5); lia.
Qed.

Lemma read_downloads_returns bad answer rest v :
  Forall (rejected_number strip int) bad ->
  accepted_number strip int answer v ->
  exists evs,
    GeneralConf.read_downloads gettext strip int (bad ++ answer :: rest)
    = (evs, GeneralConf.Done (GeneralConf.clamp_downloads v)) /\
    length (List.filter is_print evs) = length bad /\
    length (List.filter is_text_input evs) = S (length bad).
Proof.
  intros Hbad Hv. induction Hbad as [|b bad Hb _ IH].
  - cbn. destruct answer as [text|exn]; [|done]. cbn in Hv.
    destruct (String.eqb (strip text) ""); [subst v|rewrite Hv]; eauto.
  - destruct IH as (evs & Hrun & Hp & Ht).
    cbn. rewrite Hrun.
    destruct b as [text|exn]; cbn in Hb.
    + destruct Hb as [Htext Hint].
      destruct (String.eqb_spec (strip text) ""); [done|]. rewrite Hint.
      eexists. split; [reflexivity|]. cbn. by rewrite Hp, Ht.
    + eexists. split; [reflexivity|]. cbn. by rewrite Hp, Ht.
Qed.

Lemma read_downloads_asking bad :
  Forall (rejected_number strip int) bad ->
  (GeneralConf.read_downloads gettext strip int bad).2 = GeneralConf.Asking.
Proof.
  induction 1 as [|b bad Hb _ IH]; [reflexivity|]. cbn.
  destruct (GeneralConf.read_downloads gettext strip int bad) as [evs r].
  cbn in IH. subst r.
  destruct b as [text|exn]; cbn in Hb; [|reflexivity].
  destruct Hb as [Htext Hint].
  destruct (String.eqb_spec (strip text) ""); [done|]. by rewrite Hint.
Qed.

Lemma add_downloads_returns input_number bad answer rest v content :
  Forall (rejected_number strip int) bad ->
  accepted_number strip int answer v ->
  (GeneralConf.add_number_of_parrallel_downloads gettext strip int input_number
     (bad ++ answer :: rest) (Py.Ok content) None).2
  = GeneralConf.Done
      (GeneralConf.clamp_downloads v,
       GeneralConf.write_conf (GeneralConf.clamp_downloads v) content).
Proof.
  intros Hbad Hv.
  destruct (read_downloads_returns bad answer rest v Hbad Hv) as (evs & Hrun & _).
  unfold GeneralConf.add_number_of_parrallel_downloads.
  by rewrite Hrun.
Qed.

(** X13. Once the user has typed a number, or nothing, and the file can
    be read and written, the function returns, whatever number was
    passed in: the number it returns is what was typed brought into the
    range 0 to 5 (0 for nothing), and the file it leaves has the lines of
    the file it found, each line that mentions [ParallelDownloads]
    replaced by the setting (the number plus one, or the commented-out
    line for 0) and every other line as it was, and one empty line more
    at the end.  When the file cannot be read, the function raises what
    the reading raised, after it has asked for the number. *)
Theorem downloads_rewrites_setting input_number bad answer rest v content :
  Forall (rejected_number strip int) bad ->
  accepted_number strip int answer v ->
  (exists n content',
     (GeneralConf.add_number_of_parrallel_downloads gettext strip int input_number
        (bad ++ answer :: rest) (Py.Ok content) None).2
     = GeneralConf.Done (n, content') /\
     n = (if v <=? 0 then 0 else if v >? 5 then 5 else v) /\
     0 <= n <= 5 /\
     Py.split_on NL content'
     = map (set_downloads_line n) (Py.split_on NL content) ++ [EmptyString]) /\
  forall exn writing,
    (GeneralConf.add_number_of_parrallel_downloads gettext strip int input_number
       (bad ++ answer :: rest) (Py.Raised exn) writing).2
    = GeneralConf.Raise exn.
Proof.
  intros Hbad Hv. split.
  - exists (GeneralConf.clamp_downloads v),
           (GeneralConf.write_conf (GeneralConf.clamp_downloads v) content).
    split; [by apply add_downloads_returns|].
    split; [reflexivity|].
    split; [apply clamp_downloads_range|].
    apply write_conf_lines, clamp_downloads_range.
  - intros exn writing.
    destruct (read_downloads_returns bad answer rest v Hbad Hv) as (evs & Hrun & _).
    unfold GeneralConf.add_number_of_parrallel_downloads.
    by rewrite Hrun.
Qed.

(** X14. When the file does not mention [ParallelDownloads] the setting is
    not written: once the user has typed a number and the file can be
    read and written, the function returns and the file it leaves is the
    file it found with one line feed added, whatever the number. *)
Theorem downloads_setting_not_added input_number bad answer rest v content :
  Forall (rejected_number strip int) bad ->
  accepted_number strip int answer v ->
  Py.contains "ParallelDownloads" content = false ->
  (GeneralConf.add_number_of_parrallel_downloads gettext strip int input_number
     (bad ++ answer :: rest) (Py.Ok content) None).2
  = GeneralConf.Done
      (if v <=? 0 then 0 else if v >? 5 then 5 else v, content +:+ LF).
Proof.
  intros Hbad Hv Hnone.
  rewrite (add_downloads_returns input_number bad answer rest v content Hbad Hv).
  f_equal. f_equal.
  rewrite write_conf_eq, <- lines_round_trip.
  pose proof (lines_do_not_contain _ _ Hnone) as Hlines.
  induction Hlines as [|l ls Hl _ IH]; [reflexivity|].
  cbn [foldr]. rewrite IH. unfold set_downloads_line. by rewrite Hl.
Qed.

(** X15. A second rewriting overrides the first: for numbers between 0 and
    5, the lines of a file rewritten for [n] and then for [m] are those
    of the file rewritten for [m] alone, and one empty line more. *)
Theorem downloads_rewriting_twice n m content :
  0 <= n <= 5 -> 0 <= m <= 5 ->
  Py.split_on NL (GeneralConf.write_conf m (GeneralConf.write_conf n content))
  = Py.split_on NL (GeneralConf.write_conf m content) ++ [EmptyString].
Proof.
  intros Hn Hm. rewrite !write_conf_lines by assumption.
  rewrite map_app, map_map. cbn [map]. f_equal. f_equal.
  apply map_ext. intros l. unfold set_downloads_line at 2.
  destruct (Py.contains _ l) eqn:Hl.
  - unfold set_downloads_line.
    by rewrite (proj2 (downloads_setting_one_line n Hn)), Hl.
  - reflexivity.
Qed.

(** X16. [add_number_of_parrallel_downloads] asks until it has a number:
    it prints the invalid-input line and asks again after each answer
    [int] cannot read and after each prompt that raised, takes a blank
    answer for 0, and leaves its loop with what [int] made of the first
    answer it can read, brought into the range 0 to 5.  While no answer
    can be read it keeps asking: no exception of the prompt ends it. *)
Theorem downloads_first_valid_answer bad answer rest v :
  Forall (rejected_number strip int) bad ->
  accepted_number strip int answer v ->
  (exists evs,
     GeneralConf.read_downloads gettext strip int (bad ++ answer :: rest)
     = (evs, GeneralConf.Done (if v <=? 0 then 0 else if v >? 5 then 5 else v)) /\
     length (List.filter is_print evs) = length bad /\
     length (List.filter is_text_input evs) = S (length bad)) /\
  (GeneralConf.read_downloads gettext strip int bad).2 = GeneralConf.Asking.
Proof.
  intros Hbad Hv. split.
  - exact (read_downloads_returns bad answer rest v Hbad Hv).
  - by apply read_downloads_asking.
Qed.

End Conversations.

(** *** Sorting *)

Lemma insert_sorted_perm {A} (le : A -> A -> bool) x l :
  Permutation (Py.insert_sorted le x l) (x :: l).
Proof.
  induction l as [|y l IH]; cbn; [reflexivity|].
  destruct (le x y); [reflexivity|].
  rewrite IH. apply perm_swap.
Qed.

Lemma sorted_perm {A} (le : A -> A -> bool) l :
  Permutation (Py.sorted le l) l.
Proof.
  induction l as [|x l IH]; cbn; [reflexivity|].
  rewrite insert_sorted_perm. by constructor.
Qed.

(** Inserting keeps a list in order, for an order that agrees with the
    test on the element inserted. *)
Lemma insert_sorted_strongly {A} (le : A -> A -> bool) (R : A -> A -> Prop) x l :
  (forall a b c, R a b -> R b c -> R a c) ->
  (forall y, y ∈ l -> if le x y then R x y else R y x) ->
  StronglySorted R l ->
  StronglySorted R (Py.insert_sorted le x l).
Proof.
  intros Htrans. induction l as [|y l IH]; intros Hx Hsorted; cbn.
  - by repeat constructor.
  - inversion Hsorted as [|? ? Hl Hy]; subst.
    pose proof (Hx y (list_elem_of_here _ _)) as Hxy.
    destruct (le x y).
    + constructor; [exact Hsorted|]. constructor; [exact Hxy|].
      eapply Forall_impl; [exact Hy|]. intros z Hz. by eapply Htrans.
    + constructor.
      * apply IH; [|exact Hl]. intros z Hz. apply Hx. by apply list_elem_of_further.
      * rewrite insert_sorted_perm. by constructor.
Qed.

Lemma leb_trans a b c :
  String.leb a b = true -> String.leb b c = true -> String.leb a c = true.
Proof.
  intros Hab Hbc. apply Is_true_true.
  change (String.le a c). transitivity b; by apply Is_true_true.
Qed.

Lemma sorted_by_name l :
  StronglySorted (fun a b => String.leb a b = true) (Py.sorted String.leb l).
Proof.
  induction l as [|x l IH]; cbn; [constructor|].
  apply insert_sorted_strongly; [apply leb_trans | | exact IH].
  intros y _. destruct (String.leb x y) eqn:Hxy; [reflexivity|].
  by destruct (String.leb_total x y) as [Hle|Hle]; [congruence|].
Qed.

Lemma by_length_then_name_trans a b c :
  by_length_then_name a b -> by_length_then_name b c -> by_length_then_name a c.
Proof.
  unfold by_length_then_name. intros [Hab|[Hab Hnab]] [Hbc|[Hbc Hnbc]];
    try (left; lia).
  right. split; [lia | by eapply leb_trans].
Qed.

Lemma sorted_by_length l :
  StronglySorted (fun a b => String.leb a b = true) l ->
  StronglySorted by_length_then_name
    (Py.sorted (fun a b => (String.length a <=? String.length b)%nat) l).
Proof.
  induction 1 as [|x l Hl IH Hx]; [constructor|].
  change (Py.sorted ?le (x :: l))
    with (Py.insert_sorted le x (Py.sorted le l)).
  apply insert_sorted_strongly; [apply by_length_then_name_trans | | exact IH].
  intros y Hy. rewrite sorted_perm in Hy.
  rewrite Forall_forall in Hx. specialize (Hx y Hy). unfold by_length_then_name.
  destruct (Nat.leb_spec (String.length x) (String.length y)); [|by left].
  destruct (decide (String.length x = String.length y)); [by right | left; lia].
Qed.

Section Menus.
Variable gettext : string -> string.

(** X17. The keyboard layouts [select_language] offers are the layouts it
    was given, each as often as it was given, in the order of their
    length and, among layouts of one length, in alphabetical order. *)
Theorem keyboard_layouts_ordered kb_lang preset :
  let offered := GeneralConf.options
                   (GeneralConf.select_language_menu gettext kb_lang preset) in
  Permutation offered kb_lang /\
  StronglySorted by_length_then_name offered.
Proof.
  cbn [GeneralConf.options GeneralConf.select_language_menu]. split.
  - by rewrite !sorted_perm.
  - apply sorted_by_length, sorted_by_name.
Qed.

End Menus.

(** *** Dictionaries *)

Lemma dict_get_set {V} k k' (v : V) d :
  Py.dict_get k' (Py.dict_set k v d)
  = if String.eqb k k' then Some v else Py.dict_get k' d.
Proof.
  induction d as [|[k0 v0] d IH]; cbn.
  - reflexivity.
  - destruct (String.eqb_spec k0 k) as [->|Hne]; cbn.
    + destruct (String.eqb k k'); reflexivity.
    + rewrite IH. destruct (String.eqb_spec k0 k') as [->|]; [|reflexivity].
      destruct (String.eqb_spec k k'); [congruence | reflexivity].
Qed.

Lemma dict_keys_get {V} k (d : list (string * V)) :
  k ∈ Py.dict_keys d <-> is_Some (Py.dict_get k d).
Proof.
  unfold Py.dict_keys.
  induction d as [|[k0 v0] d IH]; cbn.
  - split; [intros H; by apply not_elem_of_nil in H | intros [? ?]; discriminate].
  - rewrite elem_of_cons, IH. destruct (String.eqb_spec k0 k) as [->|Hne].
    + split; eauto.
    + split; [intros [?|?]; [congruence | done] | auto].
Qed.

Lemma dict_keys_set {V} k (v : V) d :
  Py.dict_keys (Py.dict_set k v d)
  = if bool_decide (k ∈ Py.dict_keys d)
    then Py.dict_keys d else Py.dict_keys d ++ [k].
Proof.
  unfold Py.dict_keys.
  induction d as [|[k0 v0] d IH]; cbn; [reflexivity|].
  destruct (String.eqb_spec k0 k) as [->|Hne]; cbn.
  - rewrite bool_decide_eq_true_2 by apply list_elem_of_here. reflexivity.
  - rewrite IH.
    destruct (decide (k ∈ map fst d)) as [Hin|Hout].
    + rewrite !bool_decide_eq_true_2; [reflexivity | by apply list_elem_of_further | done].
    + rewrite !bool_decide_eq_false_2; [reflexivity | | done].
      rewrite elem_of_cons. intros [?|?]; congruence.
Qed.

Section Languages.
Variable Language : Type.
Variable display_name : Language -> string.

Lemma language_options_snoc languages lang :
  GeneralConf.language_options Language display_name (languages ++ [lang])
  = Py.dict_set (display_name lang) lang
      (GeneralConf.language_options Language display_name languages).
Proof. unfold GeneralConf.language_options. by rewrite foldl_app. Qed.

Lemma language_options_get languages name lang :
  Py.dict_get name (GeneralConf.language_options Language display_name languages)
    = Some lang ->
  display_name lang = name /\
  exists before after,
    languages = before ++ lang :: after /\
    Forall (fun l => display_name l <> name) after.
Proof.
  revert lang. induction languages as [|x languages IH] using rev_ind; intros lang.
  - discriminate.
  - rewrite language_options_snoc, dict_get_set.
    destruct (String.eqb_spec (display_name x) name) as [Hx|Hx].
    + intros [= <-]. split; [exact Hx|]. exists languages, []. by split.
    + intros Hget. destruct (IH _ Hget) as (Hname & before & after & -> & Hafter).
      split; [exact Hname|]. exists before, (after ++ [x]).
      rewrite <- app_assoc. split; [reflexivity|].
      apply Forall_app_2; [exact Hafter | by repeat constructor].
Qed.

Lemma language_options_keys languages :
  NoDup (Py.dict_keys (GeneralConf.language_options Language display_name languages)).
Proof.
  induction languages as [|x languages IH] using rev_ind; [constructor|].
  rewrite language_options_snoc, dict_keys_set. case_bool_decide as Hin; [exact IH|].
  apply NoDup_app. repeat split; [exact IH | | apply NoDup_singleton].
  intros k Hk Hk'. apply list_elem_of_singleton in Hk'. by subst.
Qed.

(** X18. [select_archinstall_language] offers each display name once, and
    the choice of a name it offered never fails: it returns a language
    of that name, the last of the languages given that bears it. *)
Theorem offered_language_is_selected run languages preset :
  let menu := GeneralConf.select_archinstall_language_menu Language display_name
                languages preset in
  GeneralConf.type_ (run menu) = GeneralConf.Selection ->
  GeneralConf.single_value (run menu) ∈ GeneralConf.options menu ->
  NoDup (GeneralConf.options menu) /\
  exists lang before after,
    GeneralConf.select_archinstall_language Language display_name run languages preset
      = GeneralConf.Done lang /\
    display_name lang = GeneralConf.single_value (run menu) /\
    languages = before ++ lang :: after /\
    Forall (fun l => display_name l <> GeneralConf.single_value (run menu)) after.
Proof.
  intros menu Htype Hoffered. split; [apply language_options_keys|].
  apply dict_keys_get in Hoffered as [lang Hget].
  destruct (language_options_get _ _ _ Hget) as (Hname & before & after & Hl & Hafter).
  exists lang, before, after.
  unfold GeneralConf.select_archinstall_language. fold menu.
  rewrite Htype, Hget. auto.
Qed.

End Languages.

(** ** output.py: [FormattedOutput.as_table] *)

Lemma dict_get_elem {V} k (v : V) d : Py.dict_get k d = Some v -> (k, v) ∈ d.
Proof.
  induction d as [|[k0 v0] d IH]; cbn; [discriminate|].
  destruct (String.eqb_spec k0 k) as [->|_].
  - intros [= ->]. apply list_elem_of_here.
  - intros Hget. by apply list_elem_of_further, IH.
Qed.

(** What [widen] leaves behind a key. *)
Lemma widen_get filter_list cw k v key :
  Py.dict_get key (FormattedOutput.widen filter_list cw (k, v))
  = if FormattedOutput.shown filter_list k && String.eqb k key
    then Some (max (default 0%nat (Py.dict_get k cw))
                   (max (String.length (FormattedOutput.str v)) (String.length k)))
    else Py.dict_get key cw.
Proof.
  unfold FormattedOutput.widen.
  destruct (FormattedOutput.shown filter_list k); cbn [andb]; [|reflexivity].
  rewrite dict_get_set.
  destruct (String.eqb_spec k key) as [->|Hne].
  - destruct (Py.dict_get key cw) eqn:Hk; cbn.
    + by rewrite Hk.
    + rewrite dict_get_set, String.eqb_refl. reflexivity.
  - destruct (Py.dict_get k cw); [reflexivity|].
    rewrite dict_get_set. by destruct (String.eqb_spec k key).
Qed.

Lemma widen_covers filter_list cw item key n :
  covers cw key n -> covers (FormattedOutput.widen filter_list cw item) key n.
Proof.
  destruct item as [k v]. intros (w & Hw & Hn). unfold covers.
  rewrite widen_get.
  destruct (FormattedOutput.shown filter_list k && String.eqb k key) eqn:Hk.
  - apply andb_true_iff in Hk as [_ Hk]. apply String.eqb_eq in Hk as ->.
    rewrite Hw. cbn. eexists. split; [reflexivity | lia].
  - eauto.
Qed.

Lemma widen_all_covers filter_list cw items key n :
  covers cw key n -> covers (foldl (FormattedOutput.widen filter_list) cw items) key n.
Proof.
  revert cw. induction items as [|item items IH]; intros cw Hc; [exact Hc|].
  cbn. by apply IH, widen_covers.
Qed.

Lemma widen_item_covers filter_list cw items k v :
  (k, v) ∈ items ->
  FormattedOutput.shown filter_list k = true ->
  covers (foldl (FormattedOutput.widen filter_list) cw items) k
    (max (String.length (FormattedOutput.str v)) (String.length k)).
Proof.
  intros Hin Hshown. revert cw.
  induction items as [|item items IH]; intros cw; [by apply not_elem_of_nil in Hin|].
  cbn. apply elem_of_cons in Hin as [<-|Hin]; [|by apply IH].
  apply widen_all_covers. unfold covers. rewrite widen_get, Hshown, String.eqb_refl.
  cbn. eexists. split; [reflexivity | lia].
Qed.

Lemma column_widths_cover_from filter_list cw raw_data record k v :
  record ∈ raw_data -> (k, v) ∈ record ->
  FormattedOutput.shown filter_list k = true ->
  covers (foldl (fun cw o => foldl (FormattedOutput.widen filter_list) cw o) cw raw_data)
    k (max (String.length (FormattedOutput.str v)) (String.length k)).
Proof.
  intros Hrec Hitem Hshown. revert cw.
  induction raw_data as [|o raw_data IH]; intros cw; [by apply not_elem_of_nil in Hrec|].
  cbn. apply elem_of_cons in Hrec as [<-|Hrec]; [|by apply IH].
  generalize (foldl (FormattedOutput.widen filter_list) cw record),
    (widen_item_covers filter_list cw record k v Hitem Hshown).
  clear. induction raw_data as [|o raw_data IH]; intros cw Hc; [exact Hc|].
  cbn. by apply IH, widen_all_covers.
Qed.

(** No column is narrower than its key. *)
Lemma widen_wide filter_list cw item :
  (forall key w, Py.dict_get key cw = Some w -> (String.length key <= w)%nat) ->
  forall key w, Py.dict_get key (FormattedOutput.widen filter_list cw item) = Some w ->
                (String.length key <= w)%nat.
Proof.
  destruct item as [k v]. intros Hwide key w. rewrite widen_get.
  destruct (FormattedOutput.shown filter_list k && String.eqb k key) eqn:Hk.
  - apply andb_true_iff in Hk as [_ Hk]. apply String.eqb_eq in Hk as ->.
    intros [= <-]. lia.
  - apply Hwide.
Qed.

Lemma column_widths_wide raw_data filter_list key w :
  Py.dict_get key (FormattedOutput.column_widths raw_data filter_list) = Some w ->
  (String.length key <= w)%nat.
Proof.
  unfold FormattedOutput.column_widths.
  assert (forall key w, Py.dict_get key ([] : list (string * nat)) = Some w ->
                        (String.length key <= w)%nat) as Hwide by discriminate.
  revert Hwide. generalize ([] : list (string * nat)). revert key w.
  induction raw_data as [|o raw_data IH]; intros key w cw Hwide; [apply Hwide|].
  cbn. apply IH. clear key w IH.
  revert cw Hwide. induction o as [|item o IH]; intros cw Hwide; [exact Hwide|].
  cbn. by apply IH, widen_wide.
Qed.

(** The keys that have a column. *)
Lemma widen_all_keys filter_list cw items key :
  is_Some (Py.dict_get key (foldl (FormattedOutput.widen filter_list) cw items)) <->
  is_Some (Py.dict_get key cw) \/
  (FormattedOutput.shown filter_list key = true /\ key ∈ map fst items).
Proof.
  revert cw. induction items as [|[k v] items IH]; intros cw; cbn [foldl map fst].
  - split; [auto | intros [?|[_ H]]; [done | by apply not_elem_of_nil in H]].
  - rewrite IH, widen_get, elem_of_cons.
    destruct (FormattedOutput.shown filter_list k) eqn:Hshown; cbn [andb].
    + destruct (String.eqb_spec k key) as [->|Hne].
      * split; [intros _; right; auto | intros _; left; eauto].
      * split; [intros [?|[? ?]]; auto | intros [?|[? [?|?]]]; auto; congruence].
    + split; [intros [?|[? ?]]; auto | intros [?|[? [?|?]]]; auto; congruence].
Qed.

Lemma column_widths_keys_from filter_list cw raw_data key :
  is_Some (Py.dict_get key
             (foldl (fun cw o => foldl (FormattedOutput.widen filter_list) cw o)
                    cw raw_data)) <->
  is_Some (Py.dict_get key cw) \/
  (FormattedOutput.shown filter_list key = true /\
   exists record, record ∈ raw_data /\ key ∈ map fst record).
Proof.
  revert cw. induction raw_data as [|o raw_data IH]; intros cw; cbn.
  - split; [auto | intros [?|[_ (r & H & _)]]; [done | by apply not_elem_of_nil in H]].
  - rewrite IH, widen_all_keys. split.
    + intros [[?|[? ?]]|[? (r & ? & ?)]]; auto.
      * right. split; [done|]. exists o. split; [apply list_elem_of_here | done].
      * right. split; [done|]. exists r. split; [by apply list_elem_of_further | done].
    + intros [?|[? (r & Hr & ?)]]; auto.
      apply elem_of_cons in Hr as [->|Hr]; [auto|]. right. eauto.
Qed.

Lemma column_widths_keys raw_data filter_list key :
  is_Some (Py.dict_get key (FormattedOutput.column_widths raw_data filter_list)) <->
  FormattedOutput.shown filter_list key = true /\
  exists record, record ∈ raw_data /\ key ∈ map fst record.
Proof.
  unfold FormattedOutput.column_widths. rewrite column_widths_keys_from.
  split; [intros [[? ?]|?]; [discriminate | done] | auto].
Qed.

Lemma replace_same_length c new s :
  String.length new = 1%nat ->
  String.length (Py.replace c new s) = String.length s.
Proof.
  intros Hnew. induction s as [|a s IH]; [reflexivity|]. cbn.
  destruct (Ascii.eqb a c); [rewrite string_app_length | cbn]; lia.
Qed.

Lemma replace_removes c s :
  (String.length (Py.replace c EmptyString s) <= String.length s)%nat.
Proof.
  induction s as [|a s IH]; [reflexivity|]. cbn.
  destruct (Ascii.eqb a c); [change (EmptyString +:+ ?x) with x | cbn]; lia.
Qed.

Lemma join_length sep l :
  String.length (join sep l)
  = (sum_list (map String.length l) + String.length sep * (length l - 1))%nat.
Proof.
  induction l as [|x l IH]; [cbn; lia|].
  destruct l as [|y l]; [cbn; lia|].
  change (join sep (x :: y :: l)) with (x +:+ sep +:+ join sep (y :: l)).
  rewrite !string_app_length, IH. cbn [map sum_list length].
  unfold id.
  replace (S (S (length l)) - 1)%nat with (S (S (length l) - 1)) by lia.
  rewrite Nat.mul_succ_r. lia.
Qed.

Section Tables.
Variable capitalize : string -> string.
Variable isnumeric : string -> bool.

Lemma header_cells_none cw capital filter_list :
  FormattedOutput.header_cells capitalize cw capital filter_list = None <->
  exists key, key ∈ filter_list /\ Py.dict_get key cw = None.
Proof.
  induction filter_list as [|key rest IH]; cbn.
  - split; [discriminate | intros (k & H & _); by apply not_elem_of_nil in H].
  - destruct (Py.dict_get key cw) as [w|] eqn:Hk; cbn.
    + destruct (FormattedOutput.header_cells capitalize cw capital rest) as [cells|]; cbn.
      * split; [discriminate|]. intros (k & Hin & Hnone).
        apply elem_of_cons in Hin as [->|Hin]; [congruence|].
        destruct IH as [_ IH]. discriminate IH. eauto.
      * split; [|reflexivity]. intros _. destruct IH as [IH _].
        destruct (IH eq_refl) as (k & Hin & Hnone). exists k.
        split; [by apply list_elem_of_further | done].
    + split; [|reflexivity]. intros _. exists key. split; [apply list_elem_of_here | done].
Qed.

Lemma header_cells_lengths cw capital filter_list cells :
  (capital = true -> forall s, String.length (capitalize s) = String.length s) ->
  (forall key w, Py.dict_get key cw = Some w -> (String.length key <= w)%nat) ->
  FormattedOutput.header_cells capitalize cw capital filter_list = Some cells ->
  map String.length cells = widths_of cw filter_list.
Proof.
  intros Hcap Hwide. revert cells.
  induction filter_list as [|key rest IH]; intros cells; cbn.
  - by intros [= <-].
  - destruct (Py.dict_get key cw) as [w|] eqn:Hk; [|discriminate]. cbn.
    destruct (FormattedOutput.header_cells capitalize cw capital rest) as [cells'|];
      [|discriminate]. cbn.
    intros [= <-]. cbn. rewrite (IH cells' eq_refl). f_equal.
    rewrite ljust_length.
    assert (String.length
              (if capital
               then capitalize (Py.replace (Ascii.ascii_of_nat 95) " "
                                  (Py.replace (Ascii.ascii_of_nat 33) "" key))
               else Py.replace (Ascii.ascii_of_nat 95) " "
                      (Py.replace (Ascii.ascii_of_nat 33) "" key))
            <= String.length key)%nat as Hlen.
    { destruct capital; [rewrite Hcap by reflexivity|];
        rewrite replace_same_length by reflexivity; apply replace_removes. }
    specialize (Hwide key w Hk). lia.
Qed.

Lemma data_cell_length cw record key w :
  Py.dict_get key cw = Some w ->
  (forall v, Py.dict_get key record = Some v ->
             (String.length (FormattedOutput.str v) <= w)%nat) ->
  String.length (FormattedOutput.data_cell isnumeric cw record key) = w.
Proof.
  intros Hk Hfits. unfold FormattedOutput.data_cell. rewrite Hk. cbn [default].
  set (value := if Py.contains "!" key then _ else _).
  assert (String.length (FormattedOutput.str value) <= w)%nat as Hlen.
  { subst value. destruct (Py.contains "!" key).
    - cbn. by rewrite repeat_length.
    - destruct (Py.dict_get key record) as [v|]; cbn [default]; [by apply Hfits|].
      cbn. lia. }
  destruct (match value with
            | FormattedOutput.Text s => isnumeric s
            | FormattedOutput.Number _ => true
            | FormattedOutput.Object _ => false
            end); [rewrite rjust_length | rewrite ljust_length];
    clearbody value; unfold id; lia.
Qed.

Lemma data_line_lengths cw record filter_list :
  (forall key, key ∈ filter_list -> is_Some (Py.dict_get key cw)) ->
  (forall key v, key ∈ filter_list -> Py.dict_get key record = Some v ->
                 covers cw key (String.length (FormattedOutput.str v))) ->
  map String.length (map (FormattedOutput.data_cell isnumeric cw record) filter_list)
  = widths_of cw filter_list.
Proof.
  induction filter_list as [|key rest IH]; intros Hkeys Hfits; [reflexivity|].
  cbn. rewrite IH.
  - f_equal. destruct (Hkeys key (list_elem_of_here _ _)) as [w Hw].
    rewrite Hw. cbn. apply data_cell_length; [exact Hw|].
    intros v Hv. destruct (Hfits key v (list_elem_of_here _ _) Hv) as (w' & Hw' & Hle).
    congruence.
  - intros k Hk. apply Hkeys. by apply list_elem_of_further.
  - intros k v Hk. apply Hfits. by apply list_elem_of_further.
Qed.

Lemma data_lines_append cw filter_list raw_data init :
  foldl (fun output record =>
           output +:+ FormattedOutput.data_line isnumeric cw filter_list record +:+ LF)
        init raw_data
  = init +:+ String.concat ""
               (map (fun record =>
                       FormattedOutput.data_line isnumeric cw filter_list record +:+ LF)
                    raw_data).
Proof.
  rewrite concat_empty. revert init.
  induction raw_data as [|record raw_data IH]; intros init; cbn.
  - by rewrite string_app_nil_r.
  - by rewrite IH, !string_app_assoc.
Qed.

(** The keys shown are the keys that have a column, when the header goes
    through. *)
Lemma shown_keys raw_data filter_list :
  let cw := FormattedOutput.column_widths raw_data filter_list in
  let keys := match filter_list with [] => Py.dict_keys cw | _ :: _ => filter_list end in
  forall key, key ∈ keys -> FormattedOutput.shown filter_list key = true.
Proof.
  intros cw keys key Hkey. destruct filter_list as [|k rest]; [reflexivity|].
  cbn. by apply bool_decide_eq_true.
Qed.

(** X19. The table [as_table] returns is aligned: it is the header, a line
    of dashes one character longer than the header, and one line for
    each record, every one of them as long as the header.  (Where
    [capitalize] is asked for, it is to keep the length of the keys.) *)
Theorem table_is_aligned raw_data filter_list capital output :
  (capital = true -> forall s, String.length (capitalize s) = String.length s) ->
  FormattedOutput.as_table capitalize isnumeric raw_data filter_list capital
    = Some output ->
  exists header lines,
    output = (header +:+ LF)
             +:+ (Py.repeat (Ascii.ascii_of_nat 45) (S (String.length header)) +:+ LF)
             +:+ String.concat "" (map (fun line => line +:+ LF) lines) /\
    length lines = length raw_data /\
    Forall (fun line => String.length line = String.length header) lines.
Proof.
  intros Hcap. unfold FormattedOutput.as_table.
  set (cw := FormattedOutput.column_widths raw_data filter_list).
  set (keys := match filter_list with [] => Py.dict_keys cw | _ :: _ => filter_list end).
  destruct (FormattedOutput.header_cells capitalize cw capital keys) as [cells|] eqn:Hcells;
    [|discriminate].
  cbn. intros [= <-].
  exists (join " | " cells),
         (map (FormattedOutput.data_line isnumeric cw keys) raw_data).
  assert (forall key, key ∈ keys -> is_Some (Py.dict_get key cw)) as Hkeys.
  { intros key Hkey. destruct (Py.dict_get key cw) eqn:Hget; [eauto|].
    assert (FormattedOutput.header_cells capitalize cw capital keys = None) as Hnone
      by (apply header_cells_none; eauto).
    congruence. }
  pose proof (header_cells_lengths cw capital keys cells Hcap
                (column_widths_wide raw_data filter_list) Hcells) as Hhead.
  split; [|split].
  - rewrite data_lines_append, map_map, string_app_length.
    replace (String.length (join " | " cells) + String.length LF)%nat
      with (S (String.length (join " | " cells))) by (cbn; lia).
    by rewrite !string_app_assoc.
  - by rewrite length_map.
  - apply Forall_forall. intros line Hline.
    apply list_elem_of_fmap in Hline as (record & -> & Hrecord).
    assert (length cells = length keys) as Hcount.
    { rewrite <- (length_map String.length cells), Hhead.
      unfold widths_of. by rewrite length_map. }
    unfold FormattedOutput.data_line.
    rewrite !join_length, !length_map, Hhead, Hcount.
    rewrite data_line_lengths; [reflexivity | exact Hkeys |].
    intros key v Hkey Hv.
    pose proof (column_widths_cover_from filter_list [] raw_data record key v Hrecord
                  (dict_get_elem _ _ _ Hv) (shown_keys raw_data filter_list key Hkey))
      as (w & Hw & Hle).
    exists w. split; [exact Hw | lia].
Qed.

Lemma as_table_key_error raw_data filter_list capital :
  FormattedOutput.as_table capitalize isnumeric raw_data filter_list capital = None <->
  exists key, key ∈ filter_list /\
              forall record, record ∈ raw_data -> key ∉ map fst record.
Proof.
  unfold FormattedOutput.as_table.
  set (cw := FormattedOutput.column_widths raw_data filter_list).
  set (keys := match filter_list with [] => Py.dict_keys cw | _ :: _ => filter_list end).
  assert (FormattedOutput.header_cells capitalize cw capital keys = None <->
          exists key, key ∈ filter_list /\
                      forall record, record ∈ raw_data -> key ∉ map fst record) as Hiff.
  { rewrite header_cells_none. split.
    - intros (key & Hkey & Hnone).
      destruct filter_list as [|k rest].
      + apply dict_keys_get in Hkey as [w Hw]. subst cw. congruence.
      + exists key. split; [exact Hkey|]. intros record Hrecord Hin.
        assert (is_Some (Py.dict_get key cw)) as [w Hw]; [|congruence].
        apply column_widths_keys. split; [|eauto].
        cbn. by apply bool_decide_eq_true.
    - intros (key & Hkey & Hno).
      destruct filter_list as [|k rest]; [by apply not_elem_of_nil in Hkey|].
      exists key. split; [exact Hkey|].
      destruct (Py.dict_get key cw) as [w|] eqn:Hw; [|reflexivity].
      assert (is_Some (Py.dict_get key cw)) as Hsome by eauto.
      apply column_widths_keys in Hsome as (_ & record & Hrecord & Hin).
      by destruct (Hno record Hrecord). }
  destruct (FormattedOutput.header_cells capitalize cw capital keys) as [cells|];
    cbn; [|tauto].
  split; [discriminate|]. intros H. apply Hiff in H. discriminate.
Qed.

Lemma all_values_ok obj class_formatter filter_list raw_data :
  FormattedOutput.all_values obj class_formatter filter_list = Py.Ok raw_data <->
  Forall2 (fun o d => FormattedOutput.values o class_formatter filter_list = Py.Ok d)
          obj raw_data.
Proof.
  revert raw_data. induction obj as [|o obj IH]; intros raw_data; cbn.
  - split; [intros [= <-]; constructor | by inversion 1].
  - destruct (FormattedOutput.values o class_formatter filter_list) as [d|exn] eqn:Ho.
    + destruct (FormattedOutput.all_values obj class_formatter filter_list)
        as [ds|exn] eqn:Hrest.
      * split.
        -- intros [= <-]. constructor; [exact Ho | by apply IH].
        -- inversion 1 as [|? d' ? ds' Hd Hds]; subst.
           apply IH in Hds. congruence.
      * split; [discriminate|].
        inversion 1 as [|? d' ? ds' Hd Hds]; subst.
        apply IH in Hds. discriminate.
    + split; [discriminate|].
      inversion 1 as [|? d' ? ds' Hd Hds]; subst. congruence.
Qed.

Lemma all_values_raised obj class_formatter filter_list exn :
  FormattedOutput.all_values obj class_formatter filter_list = Py.Raised exn <->
  exists before o after,
    obj = before ++ o :: after /\
    Forall (fun o' => exists d,
              FormattedOutput.values o' class_formatter filter_list = Py.Ok d) before /\
    FormattedOutput.values o class_formatter filter_list = Py.Raised exn.
Proof.
  induction obj as [|o obj IH]; cbn.
  - split; [discriminate|]. intros (before & o & after & Heq & _).
    by destruct before.
  - destruct (FormattedOutput.values o class_formatter filter_list) as [d|e] eqn:Ho.
    + destruct (FormattedOutput.all_values obj class_formatter filter_list)
        as [ds|e] eqn:Hrest.
      * split; [discriminate|].
        intros (before & o' & after & Heq & Hbefore & Ho').
        destruct before as [|b before]; injection Heq as -> ->; [congruence|].
        inversion Hbefore; subst.
        assert (@Py.Ok (list (list (string * FormattedOutput.Value))) ds = Py.Raised exn)
          as Habs; [|discriminate].
        apply IH. eauto 6.
      * split.
        -- intros [= ->]. destruct (proj1 IH eq_refl) as (before & o' & after & -> & Hb & Ho').
           exists (o :: before), o', after. repeat split; [|exact Ho'].
           constructor; eauto.
        -- intros (before & o' & after & Heq & Hbefore & Ho').
           destruct before as [|b before]; injection Heq as -> ->; [congruence|].
           inversion Hbefore; subst. apply IH. eauto 6.
    + split.
      * intros [= ->]. exists [], o, obj. repeat split; [constructor | exact Ho].
      * intros (before & o' & after & Heq & Hbefore & Ho').
        destruct before as [|b before]; injection Heq as -> ->; [congruence|].
        inversion Hbefore as [|? ? [d Hd] ?]; subst. congruence.
Qed.

(** X20. [as_table] raises what [values] raises for the first object it
    cannot read (the [ValueError] of an unsupported formatter, the
    [AttributeError] of an object without [__dict__], whatever a
    formatter raises).  When [values] reads every object it raises a
    [KeyError] when, and only when, the filter list names a key that no
    record has, and nothing else; with no filter list it then raises
    nothing. *)
Theorem table_key_error obj class_formatter filter_list capital exn :
  FormattedOutput.as_table_of_objects capitalize isnumeric obj class_formatter
    filter_list capital = Py.Raised exn <->
  (exists before o after,
     obj = before ++ o :: after /\
     Forall (fun o' => exists d,
               FormattedOutput.values o' class_formatter filter_list = Py.Ok d) before /\
     FormattedOutput.values o class_formatter filter_list = Py.Raised exn) \/
  (exists raw_data,
     Forall2 (fun o d => FormattedOutput.values o class_formatter filter_list = Py.Ok d)
             obj raw_data /\
     exn = "KeyError" /\
     exists key, key ∈ filter_list /\
                 forall record, record ∈ raw_data -> key ∉ map fst record).
Proof.
  unfold FormattedOutput.as_table_of_objects.
  destruct (FormattedOutput.all_values obj class_formatter filter_list)
    as [raw_data|e] eqn:Hall.
  - pose proof (proj1 (all_values_ok _ _ _ _) Hall) as Hraw.
    destruct (FormattedOutput.as_table capitalize isnumeric raw_data filter_list capital)
      as [output|] eqn:Htable.
    + split; [discriminate|]. intros [Hraised|(raw' & Hraw' & _ & Hkey)].
      * apply all_values_raised in Hraised. congruence.
      * apply all_values_ok in Hraw'.
        assert (raw' = raw_data) as -> by congruence.
        apply (as_table_key_error raw_data filter_list capital) in Hkey. congruence.
    + split.
      * intros [= <-]. right. exists raw_data.
        repeat split; [exact Hraw|].
        exact (proj1 (as_table_key_error raw_data filter_list capital) Htable).
      * intros [Hraised|(_ & _ & -> & _)]; [|reflexivity].
        apply all_values_raised in Hraised. congruence.
  - split.
    + intros [= ->]. left. by apply all_values_raised.
    + intros [Hraised|(raw' & Hraw' & _)].
      * apply all_values_raised in Hraised. congruence.
      * apply all_values_ok in Hraw'. congruence.
Qed.

Lemma widen_same filter_list cw i1 i2 :
  i1.1 = i2.1 ->
  String.length (FormattedOutput.str i1.2) = String.length (FormattedOutput.str i2.2) ->
  FormattedOutput.widen filter_list cw i1 = FormattedOutput.widen filter_list cw i2.
Proof.
  destruct i1 as [k1 v1], i2 as [k2 v2]. cbn. intros -> Hlen.
  unfold FormattedOutput.widen. by rewrite Hlen.
Qed.

Lemma column_widths_same raw1 raw2 filter_list :
  Forall2 same_but_masked raw1 raw2 ->
  FormattedOutput.column_widths raw1 filter_list
  = FormattedOutput.column_widths raw2 filter_list.
Proof.
  unfold FormattedOutput.column_widths. generalize ([] : list (string * nat)).
  intros cw Hsame. revert cw.
  induction Hsame as [|r1 r2 raw1 raw2 Hr _ IH]; intros cw; [reflexivity|].
  cbn [foldl]. rewrite <- IH. f_equal. clear IH. revert cw.
  induction Hr as [|i1 i2 r1 r2 (Hk & Hlen & _) _ IH]; intros cw; [reflexivity|].
  cbn [foldl]. by rewrite (widen_same _ _ i1 i2 Hk Hlen), IH.
Qed.

Lemma masked_get r1 r2 key :
  same_but_masked r1 r2 ->
  Py.contains "!" key = false ->
  Py.dict_get key r1 = Py.dict_get key r2.
Proof.
  intros Hsame Hkey.
  induction Hsame as [|[k1 v1] [k2 v2] r1 r2 (Hk & _ & Hv) _ IH]; [reflexivity|].
  cbn in Hk, Hv |- *. subst k2.
  destruct (String.eqb_spec k1 key) as [->|_]; [|exact IH].
  by rewrite (Hv Hkey).
Qed.

Lemma data_line_same cw keys r1 r2 :
  same_but_masked r1 r2 ->
  FormattedOutput.data_line isnumeric cw keys r1
  = FormattedOutput.data_line isnumeric cw keys r2.
Proof.
  intros Hsame. unfold FormattedOutput.data_line. f_equal.
  apply map_ext. intros key. unfold FormattedOutput.data_cell.
  destruct (Py.contains "!" key) eqn:Hkey; [reflexivity|].
  by rewrite (masked_get r1 r2 key Hsame Hkey).
Qed.

(** X21. What is behind a key with a ['!'] does not reach the table: two
    lists of records that differ only in the values of such keys, and
    there not in the length of what the values show, give the same
    table. *)
Theorem masked_values_stay_hidden raw1 raw2 filter_list capital :
  Forall2 same_but_masked raw1 raw2 ->
  FormattedOutput.as_table capitalize isnumeric raw1 filter_list capital
  = FormattedOutput.as_table capitalize isnumeric raw2 filter_list capital.
Proof.
  intros Hsame. unfold FormattedOutput.as_table.
  rewrite (column_widths_same raw1 raw2 filter_list Hsame).
  set (cw := FormattedOutput.column_widths raw2 filter_list).
  set (keys := match filter_list with [] => Py.dict_keys cw | _ :: _ => filter_list end).
  destruct (FormattedOutput.header_cells capitalize cw capital keys) as [cells|];
    [|reflexivity].
  cbn. f_equal. clearbody keys cw.
  generalize ((join " | " cells +:+ LF)
              +:+ Py.repeat (Ascii.ascii_of_nat 45)
                    (String.length (join " | " cells +:+ LF)) +:+ LF).
  induction Hsame as [|r1 r2 raw1 raw2 Hr _ IH]; intros init; [reflexivity|].
  cbn [foldl]. by rewrite (data_line_same cw keys r1 r2 Hr), IH.
Qed.

End Tables.

(** ** The properties on sample runs *)

Lemma log_file_gets_plain_text_witness :
  List.filter is_append
    [ AppendFile "/var/log/archinstall/install.log" ("busy" +:+ LF);
      StdoutWrite (ESC +:+ "[33mbusy" +:+ ESC +:+ "[0m" +:+ LF) ]
  = [ AppendFile "/var/log/archinstall/install.log" ("busy" +:+ LF) ].
Proof.
  apply (log_file_gets_plain_text installer_host (Output.warn ["busy"])).
  vm_compute. reflexivity.
Defined.

Lemma debug_is_quiet_witness :
  length (List.filter is_stdout
            [ AppendFile "/var/log/archinstall/install.log" ("busy" +:+ LF) ]) = 0%nat
  /\ (Output.systemd_journal installer_host = true ->
      exists text, JournalLog Output.DEBUG text
                   ∈ [ AppendFile "/var/log/archinstall/install.log" ("busy" +:+ LF) ])
  /\ (forall p, Output.absolute_logfile installer_host = Some p ->
      AppendFile p ("busy" +:+ LF)
      ∈ [ AppendFile "/var/log/archinstall/install.log" ("busy" +:+ LF) ]).
Proof.
  apply (debug_is_quiet installer_host (Output.debug ["busy"])).
  vm_compute. reflexivity.
Defined.

Lemma terminal_line_witness :
  exists body, ESC +:+ "[33mbusy" +:+ ESC +:+ "[0m" +:+ LF = body +:+ RESET +:+ LF.
Proof.
  apply (terminal_line installer_host (Output.warn ["busy"])
           [ AppendFile "/var/log/archinstall/install.log" ("busy" +:+ LF);
             StdoutWrite (ESC +:+ "[33mbusy" +:+ ESC +:+ "[0m" +:+ LF) ]).
  - vm_compute. reflexivity.
  - apply list_elem_of_further, list_elem_of_here.
Defined.

Lemma chunks_partition_witness :
  exists rows,
    FormattedOutput.chunks ["a"; "b"; "c"] 2 = Some rows /\
    concat rows = ["a"; "b"; "c"] /\
    Forall (fun r => (0 < length r <= Z.to_nat 2)%nat) rows /\
    (forall i r, rows !! i = Some r -> (S i < length rows)%nat ->
                 length r = Z.to_nat 2) /\
    Z.of_nat (length rows) = (Z.of_nat (length ["a"; "b"; "c"]) + 2 - 1) / 2.
Proof. apply (chunks_partition ["a"; "b"; "c"] 2). lia. Defined.

Lemma as_columns_length_witness :
  exists output,
    FormattedOutput.as_columns ["a"; "b"; "c"] 2 = Some output /\
    String.length output =
      (sum_list_with (fun e => (max 30 (String.length e) + 1)%nat) ["a"; "b"; "c"]
       + Z.to_nat ((Z.of_nat (length ["a"; "b"; "c"]) + 2 - 1) / 2))%nat.
Proof. apply (as_columns_length ["a"; "b"; "c"] 2). lia. Defined.

Lemma as_columns_without_columns_witness :
  FormattedOutput.as_columns ["a"; "b"; "c"] (-2) = Some EmptyString.
Proof. apply (as_columns_without_columns ["a"; "b"; "c"] (-2)). lia. Defined.

Lemma hostname_never_empty_witness :
  GeneralConf.ask_hostname untranslated sample_strip ""
    [GeneralConf.Typed "  "; GeneralConf.Typed " box "; GeneralConf.Typed "other"]
  = (replicate 2 (GeneralConf.TextInput GeneralConf.hostname_prompt ""),
     GeneralConf.Done "box").
Proof.
  refine (proj1 (hostname_never_empty untranslated sample_strip "" ["  "] " box "
                   [GeneralConf.Typed "other"] _ _)).
  - repeat constructor.
  - discriminate.
Defined.

Lemma returned_packages_are_valid_witness :
  (GeneralConf.ask_additional_packages_to_install untranslated sample_strip
     String.words sample_repr sample_validate false false []
     ["vim emacs"; "vim git"; "nano"]).2
  = GeneralConf.Done ["vim"; "git"].
Proof.
  refine (proj1 (returned_packages_are_valid untranslated sample_strip String.words
                   sample_repr sample_validate false false [] ["vim emacs"] "vim git"
                   ["nano"] eq_refl eq_refl _ _)).
  - repeat constructor; discriminate.
  - right. reflexivity.
Defined.

Lemma downloads_rewrites_setting_witness :
  (exists n content',
     (GeneralConf.add_number_of_parrallel_downloads untranslated sample_strip
        sample_int None
        [GeneralConf.Typed "many"; GeneralConf.Failed "EOFError"; GeneralConf.Typed " 3 "]
        (Py.Ok sample_conf) None).2
     = GeneralConf.Done (n, content') /\
     n = 3 /\
     0 <= n <= 5 /\
     Py.split_on NL content'
     = map (set_downloads_line n) (Py.split_on NL sample_conf) ++ [EmptyString]) /\
  forall exn writing,
    (GeneralConf.add_number_of_parrallel_downloads untranslated sample_strip
       sample_int None
       [GeneralConf.Typed "many"; GeneralConf.Failed "EOFError"; GeneralConf.Typed " 3 "]
       (Py.Raised exn) writing).2
    = GeneralConf.Raise exn.
Proof.
  refine (downloads_rewrites_setting untranslated sample_strip sample_int None
            [GeneralConf.Typed "many"; GeneralConf.Failed "EOFError"]
            (GeneralConf.Typed " 3 ") [] 3 sample_conf _ _).
  - repeat constructor; discriminate.
  - reflexivity.
Defined.

Lemma downloads_setting_not_added_witness :
  (GeneralConf.add_number_of_parrallel_downloads untranslated sample_strip
     sample_int None [GeneralConf.Typed "9"] (Py.Ok plain_conf) None).2
  = GeneralConf.Done (5, "Color" +:+ LF +:+ LF).
Proof.
  refine (downloads_setting_not_added untranslated sample_strip sample_int None
            [] (GeneralConf.Typed "9") [] 9 plain_conf _ _ _).
  - constructor.
  - reflexivity.
  - reflexivity.
Defined.

(** The file of the sample, rewritten for 3 downloads. *)
Example downloads_sample_run :
  (GeneralConf.add_number_of_parrallel_downloads untranslated sample_strip
     sample_int None [GeneralConf.Typed " 3 "] (Py.Ok sample_conf) None).2
  = GeneralConf.Done (3, "ParallelDownloads = 4" +:+ LF +:+ "Color" +:+ LF +:+ LF).
Proof. vm_compute. reflexivity. Qed.

Lemma downloads_rewriting_twice_witness :
  Py.split_on NL (GeneralConf.write_conf 0 (GeneralConf.write_conf 3 sample_conf))
  = Py.split_on NL (GeneralConf.write_conf 0 sample_conf) ++ [EmptyString].
Proof. apply (downloads_rewriting_twice 3 0 sample_conf); lia. Defined.

Lemma downloads_first_valid_answer_witness :
  (exists evs,
     GeneralConf.read_downloads untranslated sample_strip sample_int
       [GeneralConf.Failed "EOFError"; GeneralConf.Typed "many"; GeneralConf.Typed " 9 "]
     = (evs, GeneralConf.Done 5) /\
     length (List.filter is_print evs) = 2%nat /\
     length (List.filter is_text_input evs) = 3%nat) /\
  (GeneralConf.read_downloads untranslated sample_strip sample_int
     [GeneralConf.Failed "EOFError"; GeneralConf.Typed "many"]).2
  = GeneralConf.Asking.
Proof.
  refine (downloads_first_valid_answer untranslated sample_strip sample_int
            [GeneralConf.Failed "EOFError"; GeneralConf.Typed "many"]
            (GeneralConf.Typed " 9 ") [] 9 _ _).
  - repeat constructor; discriminate.
  - reflexivity.
Defined.

Lemma offered_language_is_selected_witness :
  let languages := [("de", "Deutsch"); ("en", "English"); ("de_AT", "Deutsch")] in
  NoDup (GeneralConf.options
           (GeneralConf.select_archinstall_language_menu (string * string) snd
              languages ("en", "English"))) /\
  exists lang before after,
    GeneralConf.select_archinstall_language (string * string) snd (picks "Deutsch")
      languages ("en", "English") = GeneralConf.Done lang /\
    lang.2 = "Deutsch" /\
    languages = before ++ lang :: after /\
    Forall (fun l => l.2 <> "Deutsch") after.
Proof.
  apply (offered_language_is_selected (string * string) snd (picks "Deutsch")
           [("de", "Deutsch"); ("en", "English"); ("de_AT", "Deutsch")]
           ("en", "English")).
  - reflexivity.
  - apply list_elem_of_here.
Defined.

Lemma table_is_aligned_witness :
  exists header lines,
    sample_table
    = (header +:+ LF)
      +:+ (Py.repeat (Ascii.ascii_of_nat 45) (S (String.length header)) +:+ LF)
      +:+ String.concat "" (map (fun line => line +:+ LF) lines) /\
    length lines = length sample_users /\
    Forall (fun line => String.length line = String.length header) lines.
Proof.
  apply (table_is_aligned untranslated sample_isnumeric sample_users [] false).
  - discriminate.
  - vm_compute. reflexivity.
Defined.

Lemma masked_values_stay_hidden_witness :
  FormattedOutput.as_table untranslated sample_isnumeric sample_users [] false
  = FormattedOutput.as_table untranslated sample_isnumeric sample_users' [] false.
Proof.
  apply (masked_values_stay_hidden untranslated sample_isnumeric
           sample_users sample_users' [] false).
  repeat constructor; cbn; discriminate.
Defined.

(** The users, with their passwords masked. *)
Example users_table :
  sample_table
  = "name  | password  | uid " +:+ LF
    +:+ "-------------------------" +:+ LF
    +:+ "root  | ********* |    0" +:+ LF
    +:+ "alice | ********* | 1000" +:+ LF.
Proof. vm_compute. reflexivity. Qed.

(** A filter list and no record: the [KeyError]. *)
Example table_of_nothing :
  FormattedOutput.as_table untranslated sample_isnumeric [] ["name"] false = None
  /\ FormattedOutput.as_table untranslated sample_isnumeric [] [] false
     = Some (LF +:+ "-" +:+ LF).
Proof. split; vm_compute; reflexivity. Qed.

(** The parallel downloads, set on a file that has the line and on one
    that has not. *)
Example downloads_on_samples :
  GeneralConf.write_conf 3 sample_conf
  = "ParallelDownloads = 4" +:+ LF +:+ "Color" +:+ LF +:+ LF
  /\ GeneralConf.write_conf 3 plain_conf = "Color" +:+ LF +:+ LF.
Proof. split; vm_compute; reflexivity. Qed.

(** The table of the sample users, from the objects; and two calls that
    raise: a formatter named that the objects do not have, and a column
    asked for that no user has. *)
Example table_of_sample_objects :
  FormattedOutput.as_table_of_objects untranslated sample_isnumeric sample_objects
    FormattedOutput.NoFormatter [] false = Py.Ok sample_table.
Proof. vm_compute. reflexivity. Qed.

Example table_of_unsupported_formatter :
  FormattedOutput.as_table_of_objects untranslated sample_isnumeric sample_objects
    (FormattedOutput.Named "table_data") [] false = Py.Raised "ValueError".
Proof. vm_compute. reflexivity. Qed.

Example table_of_unknown_column :
  FormattedOutput.as_table_of_objects untranslated sample_isnumeric sample_objects
    FormattedOutput.NoFormatter ["name"; "shell"] false = Py.Raised "KeyError".
Proof. vm_compute. reflexivity. Qed.
